(** * Daheng camera GUI: acquisition pipeline and centroid detector

    A shallow embedding of [gUI_new_tk_v3.py] (class [DahengCameraGUI]):
    the centroid detector [calculate_centroid], the coordinate rescaling
    done by [process_frames], the bounded frame queue shared by the two
    worker threads, the exposure callback and the lifecycle callbacks
    bound to the buttons.

    Conventions.
    - Python [int] is [Z]; Python [float] is IEEE binary64, taken from
      the Standard Library's specification of floating-point numbers
      ([SpecFloat], precision 53, emax 1024) wherever the source computes
      on floats of its own ([scale_x], [scale_y], [current_exposure]).
    - The values returned by OpenCV for a contour (area, moments) are
      exact rationals of the integer pixel coordinates and are kept in
      [Q]; the arc length, the square root and pi live in [R].
    - A Python exception is a value [Raises e] of [outcome]; a callback
      is a function of the state of the object, returning the new state
      and the effects on the outside (dialogs, prints, device calls,
      threads started) in order.
    - What the vendor SDK answers is an input: each callback takes a
      [world] that tells which device calls succeed. *)

From Stdlib Require Import ZArith QArith Qreals Reals Lra Lia List Bool.
From Stdlib Require Import Floats.SpecFloat.
Import ListNotations.

(** ** Exceptions *)

Inductive exn : Type :=
| ZeroDivisionError
| ValueError
| OverflowError
| TypeError
| AttributeError
| DeviceException (code : nat).   (* anything raised by gxipy, by its code *)

Inductive outcome (A : Type) : Type :=
| Returns (a : A)
| Raises (e : exn).
Arguments Returns {A} a.
Arguments Raises {A} e.

Definition obind {A B} (m : outcome A) (k : A -> outcome B) : outcome B :=
  match m with
  | Returns a => k a
  | Raises e => Raises e
  end.

Declare Scope outcome_scope.
Delimit Scope outcome_scope with outcome.
Notation "x <- m ;; k" := (obind m (fun x => k))
  (at level 61, m at next level, right associativity) : outcome_scope.

(** ** Python floats *)

Module Float64.

Definition prec : Z := 53.
Definition emax : Z := 1024.

Definition float : Type := spec_float.

(** [float(z)] for a Python int: the nearest binary64 number. *)
Definition of_int (z : Z) : float := binary_normalize prec emax z 0 false.

Definition mul : float -> float -> float := SFmul prec emax.
Definition div : float -> float -> float := SFdiv prec emax.

(** [int(x)]: truncation toward zero; infinities and NaN raise. *)
Definition to_int (x : float) : outcome Z :=
  match x with
  | S754_zero _ => Returns 0%Z
  | S754_infinity _ => Raises OverflowError
  | S754_nan => Raises ValueError
  | S754_finite s m e =>
      let a := match e with
               | Z0 => Zpos m
               | Zpos p => (Zpos m * 2 ^ Zpos p)%Z
               | Zneg p => (Zpos m / 2 ^ Zpos p)%Z
               end in
      Returns (if s then (- a)%Z else a)
  end.

End Float64.

(** ** OpenCV on a contour

    [cv2.findContours] returns each contour as a sequence of integer
    pixel coordinates.  The three functions the detector calls on a
    contour are defined by OpenCV through Green's formula over the
    closed polygon (the point before the first one is the last one). *)

Module CV.

Definition point : Type := (Z * Z)%type.
Definition contour : Type := list point.

Definition px (p : point) : Z := fst p.
Definition py (p : point) : Z := snd p.

(** The running sums of [cv::moments] on a contour: for every edge
    from [prev] to [p], [dxy = prev.x * p.y - p.x * prev.y], added to
    [a00], and weighted by [prev.x + p.x] for [a10], by
    [prev.y + p.y] for [a01]. *)
Definition dxy (prev p : point) : Z := (px prev * py p - px p * py prev)%Z.

Fixpoint green (weight : point -> point -> Z) (prev : point) (c : contour) : Z :=
  match c with
  | [] => 0%Z
  | p :: rest => (dxy prev p * weight prev p + green weight p rest)%Z
  end.

Definition closed_sum (weight : point -> point -> Z) (c : contour) : Z :=
  match c with
  | [] => 0%Z
  | p0 :: _ => green weight (last c p0) c
  end.

Definition a00 : contour -> Z := closed_sum (fun _ _ => 1%Z).
Definition a10 : contour -> Z := closed_sum (fun prev p => (px prev + px p)%Z).
Definition a01 : contour -> Z := closed_sum (fun prev p => (py prev + py p)%Z).

(** [cv2.contourArea(c)]: half the absolute value of the signed sum. *)
Definition contourArea (c : contour) : Q := Z.abs (a00 c) # 2.

(** [cv2.moments(c)]: the entries the detector reads.  The sums are
    scaled by 1/2 and 1/6, with the sign of [a00], and every moment is
    zero when [a00] is. *)
Record Moments : Type := { m00 : Q; m10 : Q; m01 : Q }.

Definition moments (c : contour) : Moments :=
  let s := Z.sgn (a00 c) in
  {| m00 := (s * a00 c) # 2;
     m10 := (s * a10 c) # 6;
     m01 := (s * a01 c) # 6 |}.

(** [cv2.arcLength(c, closed)]: the sum of the Euclidean lengths of
    the edges; a closed curve starts from the last point, an open one
    from the first (whose edge to itself has length zero). *)
Definition dist (prev p : point) : R :=
  let dx := (px p - px prev)%Z in
  let dy := (py p - py prev)%Z in
  sqrt (IZR (dx * dx + dy * dy)).

Fixpoint path_length (prev : point) (c : contour) : R :=
  match c with
  | [] => 0%R
  | p :: rest => (dist prev p + path_length p rest)%R
  end.

Definition arcLength (c : contour) (closed : bool) : R :=
  match c with
  | [] => 0%R
  | p0 :: _ => path_length (if closed then last c p0 else p0) c
  end.

End CV.

(** ** Python built-ins used by the detector *)

Module Py.

(** [max(l, key=key)]: the first element whose key is not exceeded;
    [ValueError] on an empty sequence. *)
Fixpoint max_from {A} (key : A -> Q) (best : A) (l : list A) : A :=
  match l with
  | [] => best
  | x :: rest =>
      max_from key (if Qle_bool (key x) (key best) then best else x) rest
  end.

Definition max {A} (l : list A) (key : A -> Q) : outcome A :=
  match l with
  | [] => Raises ValueError
  | x :: rest => Returns (max_from key x rest)
  end.

(** [int(q)] on an exact quotient: truncation toward zero. *)
Definition int (q : Q) : Z := Z.quot (Qnum q) (Zpos (Qden q)).

(** [a / b] on floats read as reals: division by zero raises. *)
Definition truediv (a b : R) : outcome R :=
  if Req_dec_T b 0 then Raises ZeroDivisionError else Returns (a / b)%R.

(** Truth value of a sequence, and of [None] or a tuple. *)
Definition truthy_list {A} (l : list A) : bool :=
  match l with [] => false | _ :: _ => true end.

Definition truthy_opt {A} (o : option A) : bool :=
  match o with None => false | Some _ => true end.

(** A Python number: the detector returns the int [0] when it finds
    nothing, and floats otherwise. *)
Inductive num : Type :=
| Int (z : Z)
| Float (r : R).

End Py.

(** ** The detector: [calculate_centroid] *)

Module Detector.

Import CV.
Local Open Scope outcome_scope.

(** The triple [(centroid, diameter, circularity)]. *)
Definition detection : Type := (option (Z * Z) * Py.num * Py.num)%type.

(** [return None, 0, 0] *)
Definition not_found : detection := (None, Py.Int 0, Py.Int 0).

(** The steps on one selected contour, from [cv2.moments] on. *)
Definition measure (largest_contour : contour) : outcome detection :=
  let moments := CV.moments largest_contour in
  if negb (Qeq_bool (m00 moments) 0) then
    let cx := Py.int (m10 moments / m00 moments) in
    let cy := Py.int (m01 moments / m00 moments) in
    let area := Q2R (contourArea largest_contour) in
    let diameter := sqrt (4 * area / PI) in
    let perimeter := arcLength largest_contour true in
    ratio <- Py.truediv area (perimeter * perimeter) ;;
    let circularity := (4 * PI * ratio)%R in
    Returns (Some (cx, cy), Py.Float diameter, Py.Float circularity)
  else Returns not_found.

Section Pipeline.

(** The image types and the three OpenCV calls that lead from the
    image to its contours: [cv2.cvtColor(image, COLOR_BGR2GRAY)],
    [cv2.threshold(gray, 0, 255, THRESH_BINARY + THRESH_OTSU)] and
    [cv2.findContours(thresholded, RETR_EXTERNAL, CHAIN_APPROX_SIMPLE)]. *)
Variables Image Gray Binary : Type.
Variable cvtColor : Image -> Gray.
Variable threshold : Gray -> Binary.
Variable findContours : Binary -> list contour.

Definition calculate_centroid (image : Image) : outcome detection :=
  let gray := cvtColor image in
  let thresholded_image := threshold gray in
  let contours := findContours thresholded_image in
  if Py.truthy_list contours then
    largest_contour <- Py.max contours contourArea ;;
    measure largest_contour
  else Returns not_found.

End Pipeline.

Arguments calculate_centroid {Image Gray Binary}.

End Detector.

(** ** The body of [process_frames] after the resize *)

Module Processing.

Import Float64.
Local Open Scope outcome_scope.

Definition scale_x : float := div (of_int 4096) (of_int 1280).
Definition scale_y : float := div (of_int 3000) (of_int 720).

(** [cx, cy = centroid] *)
Definition unpack (centroid : option (Z * Z)) : outcome (Z * Z) :=
  match centroid with
  | Some p => Returns p
  | None => Raises TypeError
  end.

(** [cx_original, cy_original]: the centroid in sensor coordinates,
    or [None, None]. *)
Definition native_coordinates (centroid : option (Z * Z))
  : outcome (option Z * option Z) :=
  if Py.truthy_opt centroid then
    p <- unpack centroid ;;
    let cx_resized := fst p in
    let cy_resized := snd p in
    cx_original <- to_int (mul (of_int cx_resized) scale_x) ;;
    cy_original <- to_int (mul (of_int cy_resized) scale_y) ;;
    Returns (Some cx_original, Some cy_original)
  else Returns (None, None).

(** What is drawn on the 1280x720 image. *)
Inductive shape : Type :=
| Line (x0 y0 x1 y1 : Z)
| Ellipse (x0 y0 x1 y1 : Z)
| TextCoordinates (x y : Z) (cx_original cy_original : option Z)
| TextDiameter (x y : Z) (diameter : Py.num)
| TextCircularity (x y : Z) (circularity : Py.num).

Definition overlay (d : Detector.detection) (native : option Z * option Z)
  : outcome (list shape) :=
  let '(centroid, diameter, circularity) := d in
  let axes := [Line 0 360 1280 360; Line 640 0 640 720] in
  if Py.truthy_opt centroid then
    p <- unpack centroid ;;
    let cx := fst p in
    let cy := snd p in
    Returns (axes ++
             [Ellipse (cx - 5) (cy - 5) (cx + 5) (cy + 5);
              TextCoordinates (cx + 10) (cy + 10) (fst native) (snd native);
              TextDiameter 10 20 diameter;
              TextCircularity 10 40 circularity])
  else Returns axes.

Section Pipeline.

Variables Image Gray Binary : Type.
Variable cvtColor : Image -> Gray.
Variable threshold : Gray -> Binary.
Variable findContours : Binary -> list CV.contour.

Definition process_image (resized_image : Image) : outcome (list shape) :=
  d <- Detector.calculate_centroid cvtColor threshold findContours resized_image ;;
  native <- native_coordinates (fst (fst d)) ;;
  overlay d native.

End Pipeline.

Arguments process_image {Image Gray Binary}.

(** The rounding that the specification names: the nearest integer of
    the quotient [n / d] ([d > 0]), a tie going to the even one as
    Python's [round] does. *)
Definition round_div (n d : Z) : Z :=
  let q := (n / d)%Z in
  let r := (n mod d)%Z in
  match (2 * r ?= d)%Z with
  | Lt => q
  | Gt => (q + 1)%Z
  | Eq => if Z.even q then q else (q + 1)%Z
  end.

Definition native_rounded (cx cy : Z) : Z * Z :=
  (round_div (cx * 4096) 1280, round_div (cy * 3000) 720).

End Processing.

(** ** [queue.Queue]

    The queue between the two workers.  [put] and [get] are the blocking
    calls of the source (no timeout): [None] says that the caller waits
    and the queue is as it was. *)

Module FrameQueue.

Record Queue (A : Type) : Type := { maxsize : Z; queue : list A }.
Arguments maxsize {A} q.
Arguments queue {A} q.

Section Ops.

Context {A : Type}.

(** [queue.Queue(maxsize=n)] *)
Definition new (n : Z) : Queue A := {| maxsize := n; queue := [] |}.

Definition qsize (q : Queue A) : Z := Z.of_nat (length (queue q)).

(** A bound of zero or less means no bound. *)
Definition full (q : Queue A) : bool :=
  (0 <? maxsize q)%Z && (maxsize q <=? qsize q)%Z.

Definition put (q : Queue A) (item : A) : option (Queue A) :=
  if full q then None
  else Some {| maxsize := maxsize q; queue := queue q ++ [item] |}.

Definition get (q : Queue A) : option (A * Queue A) :=
  match queue q with
  | [] => None
  | item :: rest => Some (item, {| maxsize := maxsize q; queue := rest |})
  end.

(** [q.queue.clear()]: the underlying deque is emptied. *)
Definition clear (q : Queue A) : Queue A :=
  {| maxsize := maxsize q; queue := [] |}.

End Ops.

End FrameQueue.

(** ** The object [DahengCameraGUI] *)

Module Gui.

Import FrameQueue.

Inductive button_state : Type := normal | disabled.

Inductive button : Type :=
| btn_connect | btn_start | btn_stop | btn_save | btn_close.

Record buttons : Type := {
  connect_state : button_state;
  start_state : button_state;
  stop_state : button_state;
  save_state : button_state;
  close_state : button_state }.

Definition state_of (bs : buttons) (b : button) : button_state :=
  match b with
  | btn_connect => connect_state bs
  | btn_start => start_state bs
  | btn_stop => stop_state bs
  | btn_save => save_state bs
  | btn_close => close_state bs
  end.

(** [b.config(state=st)] *)
Definition config (b : button) (st : button_state) (bs : buttons) : buttons :=
  match b with
  | btn_connect =>
      {| connect_state := st; start_state := start_state bs;
         stop_state := stop_state bs; save_state := save_state bs;
         close_state := close_state bs |}
  | btn_start =>
      {| connect_state := connect_state bs; start_state := st;
         stop_state := stop_state bs; save_state := save_state bs;
         close_state := close_state bs |}
  | btn_stop =>
      {| connect_state := connect_state bs; start_state := start_state bs;
         stop_state := st; save_state := save_state bs;
         close_state := close_state bs |}
  | btn_save =>
      {| connect_state := connect_state bs; start_state := start_state bs;
         stop_state := stop_state bs; save_state := st;
         close_state := close_state bs |}
  | btn_close =>
      {| connect_state := connect_state bs; start_state := start_state bs;
         stop_state := stop_state bs; save_state := save_state bs;
         close_state := st |}
  end.

(** Frames of the vendor SDK. *)
Inductive frame_status : Type := SUCCESS | INCOMPLETE.
Record raw_image : Type := { get_status : frame_status; frame_id : nat }.

Definition camera : Type := nat.        (* the handle of an opened device *)

(** The two thread targets. *)
Inductive target : Type := target_acquire_frames | target_process_frames.

Record gui : Type := {
  device_manager : option unit;
  cam : option camera;
  is_streaming : bool;
  current_exposure : Float64.float;
  frame_queue : Queue raw_image;
  widgets : buttons;
  acquisition_thread : option target;
  processing_thread : option target }.

(** [__init__] *)
Definition init : gui := {|
  device_manager := None;
  cam := None;
  is_streaming := false;
  current_exposure := Float64.of_int 10000;
  frame_queue := new 2;
  widgets := {| connect_state := normal; start_state := disabled;
                stop_state := disabled; save_state := disabled;
                close_state := disabled |};
  acquisition_thread := None;
  processing_thread := None |}.

(** Assignments to the attributes. *)
Definition with_device_manager (v : option unit) (g : gui) : gui :=
  {| device_manager := v; cam := cam g; is_streaming := is_streaming g;
     current_exposure := current_exposure g; frame_queue := frame_queue g;
     widgets := widgets g; acquisition_thread := acquisition_thread g;
     processing_thread := processing_thread g |}.

Definition with_cam (v : option camera) (g : gui) : gui :=
  {| device_manager := device_manager g; cam := v;
     is_streaming := is_streaming g;
     current_exposure := current_exposure g; frame_queue := frame_queue g;
     widgets := widgets g; acquisition_thread := acquisition_thread g;
     processing_thread := processing_thread g |}.

Definition with_is_streaming (v : bool) (g : gui) : gui :=
  {| device_manager := device_manager g; cam := cam g; is_streaming := v;
     current_exposure := current_exposure g; frame_queue := frame_queue g;
     widgets := widgets g; acquisition_thread := acquisition_thread g;
     processing_thread := processing_thread g |}.

Definition with_current_exposure (v : Float64.float) (g : gui) : gui :=
  {| device_manager := device_manager g; cam := cam g;
     is_streaming := is_streaming g;
     current_exposure := v; frame_queue := frame_queue g;
     widgets := widgets g; acquisition_thread := acquisition_thread g;
     processing_thread := processing_thread g |}.

Definition with_frame_queue (v : Queue raw_image) (g : gui) : gui :=
  {| device_manager := device_manager g; cam := cam g;
     is_streaming := is_streaming g;
     current_exposure := current_exposure g; frame_queue := v;
     widgets := widgets g; acquisition_thread := acquisition_thread g;
     processing_thread := processing_thread g |}.

Definition with_widgets (v : buttons) (g : gui) : gui :=
  {| device_manager := device_manager g; cam := cam g;
     is_streaming := is_streaming g;
     current_exposure := current_exposure g; frame_queue := frame_queue g;
     widgets := v; acquisition_thread := acquisition_thread g;
     processing_thread := processing_thread g |}.

Definition with_acquisition_thread (v : option target) (g : gui) : gui :=
  {| device_manager := device_manager g; cam := cam g;
     is_streaming := is_streaming g;
     current_exposure := current_exposure g; frame_queue := frame_queue g;
     widgets := widgets g; acquisition_thread := v;
     processing_thread := processing_thread g |}.

Definition with_processing_thread (v : option target) (g : gui) : gui :=
  {| device_manager := device_manager g; cam := cam g;
     is_streaming := is_streaming g;
     current_exposure := current_exposure g; frame_queue := frame_queue g;
     widgets := widgets g; acquisition_thread := acquisition_thread g;
     processing_thread := v |}.

(** *** Effects *)

Inductive device_call : Type :=
| DeviceManager
| UpdateDeviceList
| OpenDeviceBySn (sn : nat)
| WidthSet (v : Z)
| HeightSet (v : Z)
| AcquisitionFrameRateSet (v : Float64.float)
| ExposureTimeSet (v : Float64.float)
| StreamOn
| StreamOff
| GetImage
| CloseDevice.

(** The texts shown or printed, by what they say. *)
Inductive message : Type :=
| NoCamerasFound                    (* "No cameras found." *)
| ResolutionSet                     (* "Resolution set to 4096x3000" *)
| ResolutionNotSupported
| FrameRateSet                      (* "Frame Rate Set to 1 FPS" *)
| FrameRateNotSupported
| ExposureTimeSetTo (v : Float64.float)
| ExposureTimeNotSupported
| FailedToConnect (e : exn)
| CameraNotConnected                (* "Camera not connected." *)
| AcquisitionStarted
| FailedToStartAcquisition (e : exn)
| AcquisitionStopped
| FailedToStopAcquisition (e : exn)
| ErrorAcquiringFrame (e : exn)
| ErrorProcessingFrame (e : exn)
| ExposureTimeUpdatedTo (v : Float64.float)
| FailedToUpdateExposureTime (e : exn)
| AcquisitionNotRunning             (* "Acquisition is not running." *)
| IncompleteFrame
| FailedToConvert
| FailedToGetNumpyArray
| ImageSavedTo (path : nat)
| FailedToSaveImage (e : exn)
| CameraClosed
| FailedToCloseCamera (e : exn).

Inductive event : Type :=
| Showwarning (m : message)
| Showinfo (m : message)
| Showerror (m : message)
| Print (m : message)
| Device (c : device_call)
| ThreadStart (t : target)
| After (ms : Z)                    (* [root.after(ms, self.update_frame)] *)
| Present (drawn : list Processing.shape)   (* the image put on the label *)
| SaveFile (path : nat)             (* [pil_image.save(file_path)] *)
| Destroy.                          (* [root.destroy()] *)

(** A method body: the attributes before, the result or the exception,
    the attributes after, and the effects in order. *)
Definition M (A : Type) : Type := gui -> outcome A * gui * list event.

Definition ret {A} (a : A) : M A := fun g => (Returns a, g, []).

Definition bind {A B} (m : M A) (k : A -> M B) : M B :=
  fun g =>
    match m g with
    | (Returns a, g1, ev1) =>
        let '(r, g2, ev2) := k a g1 in (r, g2, ev1 ++ ev2)
    | (Raises e, g1, ev1) => (Raises e, g1, ev1)
    end.

Definition read : M gui := fun g => (Returns g, g, []).
Definition assign (f : gui -> gui) : M unit := fun g => (Returns tt, f g, []).
Definition emit (e : event) : M unit := fun g => (Returns tt, g, [e]).

(** An action on the outside that may raise, with what it answers. *)
Definition attempt {A} (e : event) (answer : outcome A) : M A :=
  fun g => (answer, g, [e]).

(** A call into the SDK. *)
Definition call {A} (c : device_call) (answer : outcome A) : M A :=
  attempt (Device c) answer.

(** [try: body except Exception as e: handler e] *)
Definition try_except (body : M unit) (handler : exn -> M unit) : M unit :=
  fun g =>
    match body g with
    | (Returns a, g1, ev1) => (Returns a, g1, ev1)
    | (Raises e, g1, ev1) =>
        let '(r, g2, ev2) := handler e g1 in (r, g2, ev1 ++ ev2)
    end.

Definition set_button (b : button) (st : button_state) : M unit :=
  assign (fun g => with_widgets (config b st (widgets g)) g).

Declare Scope gui_scope.
Delimit Scope gui_scope with gui.
Notation "x <- m ;; k" := (bind m (fun x => k))
  (at level 61, m at next level, right associativity) : gui_scope.
Notation "m ;; k" := (bind m (fun _ => k))
  (at level 61, right associativity) : gui_scope.
Local Open Scope gui_scope.

(** *** The outside world during one callback

    What each SDK call answers when the callback makes it, and what
    the file dialog returns. *)
Record world : Type := {
  w_device_manager : outcome unit;
  w_update_device_list : outcome (list nat);       (* serial numbers *)
  w_open_device_by_sn : nat -> outcome camera;
  w_resolution_writable : bool;
  w_width_set : outcome unit;
  w_height_set : outcome unit;
  w_frame_rate_writable : bool;
  w_frame_rate_set : outcome unit;
  w_exposure_writable : bool;
  w_exposure_set : outcome unit;
  w_stream_on : outcome unit;
  w_stream_off : outcome unit;
  w_get_image : outcome raw_image;
  w_convert : bool;                 (* [convert("RGB")] is not [None] *)
  w_numpy_array : bool;             (* [get_numpy_array()] is not [None] *)
  w_save_path : option nat;         (* [asksaveasfilename], empty if cancelled *)
  w_save : outcome unit;
  w_close_device : outcome unit }.

(** [self.cam.xxx]: an attribute of [None] raises. *)
Definition the_cam : M camera :=
  fun g => match cam g with
           | Some c => (Returns c, g, [])
           | None => (Raises AttributeError, g, [])
           end.

Definition connect_camera (w : world) : M unit :=
  try_except
    (call DeviceManager (w_device_manager w) ;;
     assign (with_device_manager (Some tt)) ;;
     dev_info_list <- call UpdateDeviceList (w_update_device_list w) ;;
     match dev_info_list with
     | [] => emit (Showwarning NoCamerasFound)
     | sn :: _ =>
         c <- call (OpenDeviceBySn sn) (w_open_device_by_sn w sn) ;;
         assign (with_cam (Some c)) ;;
         (if w_resolution_writable w then
            call (WidthSet 4096) (w_width_set w) ;;
            call (HeightSet 3000) (w_height_set w) ;;
            emit (Showinfo ResolutionSet)
          else emit (Showwarning ResolutionNotSupported)) ;;
         (if w_frame_rate_writable w then
            call (AcquisitionFrameRateSet (Float64.of_int 1)) (w_frame_rate_set w) ;;
            emit (Showinfo FrameRateSet)
          else emit (Showwarning FrameRateNotSupported)) ;;
         g <- read ;;
         (if w_exposure_writable w then
            call (ExposureTimeSet (current_exposure g)) (w_exposure_set w) ;;
            emit (Showinfo (ExposureTimeSetTo (current_exposure g)))
          else emit (Showwarning ExposureTimeNotSupported)) ;;
         set_button btn_start normal ;;
         set_button btn_connect disabled ;;
         set_button btn_close normal
     end)
    (fun e => emit (Showerror (FailedToConnect e))).

Definition update_frame : M unit :=
  g <- read ;;
  if is_streaming g then emit (After 200) else ret tt.

Definition start_acquisition (w : world) : M unit :=
  g <- read ;;
  match cam g with
  | None => emit (Showwarning CameraNotConnected)
  | Some _ =>
      try_except
        (call StreamOn (w_stream_on w) ;;
         assign (with_is_streaming true) ;;
         set_button btn_stop normal ;;
         set_button btn_save normal ;;
         set_button btn_start disabled ;;
         emit (Showinfo AcquisitionStarted) ;;
         assign (with_acquisition_thread (Some target_acquire_frames)) ;;
         emit (ThreadStart target_acquire_frames) ;;
         assign (with_processing_thread (Some target_process_frames)) ;;
         emit (ThreadStart target_process_frames) ;;
         update_frame)
        (fun e => emit (Showerror (FailedToStartAcquisition e)))
  end.

Definition stop_acquisition (w : world) : M unit :=
  g <- read ;;
  match cam g with
  | None => ret tt
  | Some _ =>
      if negb (is_streaming g) then ret tt
      else
        try_except
          (call StreamOff (w_stream_off w) ;;
           assign (with_is_streaming false) ;;
           set_button btn_start normal ;;
           set_button btn_stop disabled ;;
           emit (Showinfo AcquisitionStopped) ;;
           assign (fun g => with_frame_queue (clear (frame_queue g)) g))
          (fun e => emit (Showerror (FailedToStopAcquisition e)))
  end.

(** The slider callback; [value] is the number that Tk passes. *)
Definition update_exposure (w : world) (value : Z) : M unit :=
  g <- read ;;
  match cam g with
  | None => ret tt
  | Some _ =>
      if is_streaming g then
        try_except
          (assign (with_current_exposure (Float64.of_int value)) ;;
           g <- read ;;
           call (ExposureTimeSet (current_exposure g)) (w_exposure_set w) ;;
           emit (Print (ExposureTimeUpdatedTo (current_exposure g))))
          (fun e => emit (Print (FailedToUpdateExposureTime e)))
      else ret tt
  end.

Definition save_image (w : world) : M unit :=
  g <- read ;;
  if negb (is_streaming g) then emit (Showwarning AcquisitionNotRunning)
  else
    try_except
      (the_cam ;;
       img <- call GetImage (w_get_image w) ;;
       match get_status img with
       | INCOMPLETE => emit (Showwarning IncompleteFrame)
       | SUCCESS =>
           if negb (w_convert w) then emit (Showwarning FailedToConvert)
           else if negb (w_numpy_array w) then
             emit (Showwarning FailedToGetNumpyArray)
           else
             match w_save_path w with
             | None => ret tt
             | Some file_path =>
                 attempt (SaveFile file_path) (w_save w) ;;
                 emit (Showinfo (ImageSavedTo file_path))
             end
       end)
      (fun e => emit (Showerror (FailedToSaveImage e))).

Definition close_camera (w : world) : M unit :=
  g <- read ;;
  match cam g with
  | None => ret tt
  | Some _ =>
      try_except
        ((if is_streaming g then call StreamOff (w_stream_off w) else ret tt) ;;
         call CloseDevice (w_close_device w) ;;
         assign (with_device_manager None) ;;
         assign (with_cam None) ;;
         assign (with_is_streaming false) ;;
         set_button btn_start disabled ;;
         set_button btn_stop disabled ;;
         set_button btn_save disabled ;;
         set_button btn_close disabled ;;
         set_button btn_connect normal ;;
         emit (Showinfo CameraClosed))
        (fun e => emit (Showerror (FailedToCloseCamera e)))
  end.

Definition closeEvent (w : world) : M unit :=
  close_camera w ;;
  emit Destroy.

(** *** Pressing a button

    Each button is bound to its method; Tk does not call the command
    of a button whose state is [disabled]. *)
Definition command (b : button) : world -> M unit :=
  match b with
  | btn_connect => connect_camera
  | btn_start => start_acquisition
  | btn_stop => stop_acquisition
  | btn_save => save_image
  | btn_close => close_camera
  end.

Definition press (b : button) (w : world) : M unit :=
  g <- read ;;
  match state_of (widgets g) b with
  | normal => command b w
  | disabled => ret tt
  end.

(** An error dialog or an error print among the effects. *)
Definition is_report (e : event) : bool :=
  match e with
  | Showwarning _ | Showerror _ => true
  | Print (ErrorAcquiringFrame _) | Print (ErrorProcessingFrame _)
  | Print (FailedToUpdateExposureTime _) => true
  | _ => false
  end.

Definition reports (evs : list event) : bool := existsb is_report evs.

(** The clamp to the range of the exposure slider,
    [Scale(from_=1000, to=100000)]. *)
Definition clamp (value : Z) : Z := Z.max 1000 (Z.min value 100000).

End Gui.

(** ** The worker threads

    A thread is followed by where it stands in its loop.  The two calls
    that can wait ([put] on a full queue, [get] on an empty one) are
    places of their own.

    [queue.Queue] makes a waiting thread sleep on a condition: [put]
    on [not_full], which [get] notifies, and [get] on [not_empty], which
    [put] notifies.  The list gets a frame through [put] only, so a
    thread in [get] that finds a frame is a thread that [put] has
    notified (or that had not slept yet): [get] is followed as a test
    made again at every step.  Room in the list is made by [get], but
    also by [self.frame_queue.queue.clear()] in [stop_acquisition],
    which empties the list behind the queue's back and notifies no
    one.  So for [put] the test and the sleep are two places: a thread
    asleep in [put] does not move by itself, whatever the list holds; a
    [get] that returns wakes the thread that has slept longest, which
    then tests again. *)

Module Worker.

Import FrameQueue Gui.

(** [acquire_frames] *)
Inductive acquirer : Type :=
| AcquireLoop                       (* at [while self.is_streaming] *)
| AcquirePut (raw_image : raw_image)
    (* inside [self.frame_queue.put], at the test of the queue: on
       entering, and again each time the thread is woken *)
| AcquireWaiting (raw_image : raw_image)
    (* inside [self.frame_queue.put], asleep in [not_full.wait()] *)
| AcquireDone.

(** One step; [src] is what [get_image()] answers if it is called. *)
Definition acquire_step (src : outcome raw_image) (g : gui) (pc : acquirer)
  : gui * acquirer * list event :=
  match pc with
  | AcquireLoop =>
      if is_streaming g then
        match cam g with
        | None => (g, AcquireLoop, [Print (ErrorAcquiringFrame AttributeError)])
        | Some _ =>
            match src with
            | Raises e =>
                (g, AcquireLoop, [Device GetImage; Print (ErrorAcquiringFrame e)])
            | Returns raw =>
                match get_status raw with
                | INCOMPLETE => (g, AcquireLoop, [Device GetImage])
                | SUCCESS => (g, AcquirePut raw, [Device GetImage])
                end
            end
        end
      else (g, AcquireDone, [])
  | AcquirePut raw =>
      match put (frame_queue g) raw with
      | Some q => (with_frame_queue q g, AcquireLoop, [])
      | None => (g, AcquireWaiting raw, [])
      end
  | AcquireWaiting raw => (g, AcquireWaiting raw, [])
  | AcquireDone => (g, AcquireDone, [])
  end.

(** The loop on a sequence of answers of the frame source. *)
Fixpoint acquire_run (srcs : list (outcome raw_image)) (g : gui) (pc : acquirer)
  : gui * acquirer * list event :=
  match srcs with
  | [] => (g, pc, [])
  | src :: rest =>
      let '(g1, pc1, ev1) := acquire_step src g pc in
      let '(g2, pc2, ev2) := acquire_run rest g1 pc1 in
      (g2, pc2, ev1 ++ ev2)
  end.

(** [process_frames] *)
Inductive processor : Type :=
| ProcessLoop                       (* at [while self.is_streaming] *)
| ProcessGet                        (* inside [self.frame_queue.get] *)
| ProcessDone.

Section Body.

(** The conversions of the SDK and the OpenCV calls. *)
Variables RGBImage Image Gray Binary : Type.
Variable convert : raw_image -> outcome (option RGBImage).
Variable get_numpy_array : RGBImage -> outcome (option Image).
Variable resize : Image -> Image.          (* to 1280x720 *)
Variable cvtColor : Image -> Gray.
Variable threshold : Gray -> Binary.
Variable findContours : Binary -> list CV.contour.

Local Open Scope outcome_scope.

(** The body of the loop on one frame taken from the queue. *)
Definition process_frame (raw : raw_image) : list event :=
  let body : outcome (list event) :=
    rgb_image <- convert raw ;;
    match rgb_image with
    | None => Returns []
    | Some rgb =>
        numpy_image <- get_numpy_array rgb ;;
        match numpy_image with
        | None => Returns []
        | Some a =>
            drawn <- Processing.process_image cvtColor threshold findContours
                       (resize a) ;;
            Returns [Present drawn]
        end
    end in
  match body with
  | Returns evs => evs
  | Raises e => [Print (ErrorProcessingFrame e)]
  end.

End Body.

Definition process_step (body : raw_image -> list event) (g : gui) (pc : processor)
  : gui * processor * list event :=
  match pc with
  | ProcessLoop =>
      if is_streaming g then (g, ProcessGet, []) else (g, ProcessDone, [])
  | ProcessGet =>
      match get (frame_queue g) with
      | Some (raw, q) => (with_frame_queue q g, ProcessLoop, body raw)
      | None => (g, ProcessGet, [])
      end
  | ProcessDone => (g, ProcessDone, [])
  end.

End Worker.

(** ** The running program: the Tk main loop and the threads *)

Module System.

Import FrameQueue Gui Worker.

Inductive thread : Type :=
| Acquirer (pc : acquirer)
| Processor (pc : processor).

(** The object, the threads started so far, and the threads asleep in
    [put], by their numbers, in the order in which they fell asleep. *)
Record system : Type := {
  ui : gui;
  threads : list thread;
  not_full_waiters : list nat }.

Definition boot : system :=
  {| ui := init; threads := []; not_full_waiters := [] |}.

(** What can happen next. *)
Inductive action : Type :=
| Press (b : button) (w : world)
| Slide (value : Z) (w : world)
| Tick                              (* the timer calls [update_frame] *)
| WindowClose (w : world)           (* [WM_DELETE_WINDOW] *)
| Run (i : nat) (src : outcome raw_image).   (* thread [i] moves *)

Definition spawned (e : event) : list thread :=
  match e with
  | ThreadStart target_acquire_frames => [Acquirer AcquireLoop]
  | ThreadStart target_process_frames => [Processor ProcessLoop]
  | _ => []
  end.

Definition callback (m : M unit) (s : system) : system * list event :=
  let '(_, g, evs) := m (ui s) in
  ({| ui := g; threads := threads s ++ flat_map spawned evs;
      not_full_waiters := not_full_waiters s |}, evs).

Fixpoint set_nth {A} (i : nat) (x : A) (l : list A) : list A :=
  match l, i with
  | [], _ => []
  | _ :: rest, O => x :: rest
  | y :: rest, S j => y :: set_nth j x rest
  end.

(** [not_full.notify()]: the thread that has slept longest in [put]
    wakes and is back at the test; with no thread asleep nothing
    happens. *)
Definition woken (t : thread) : thread :=
  match t with
  | Acquirer (AcquireWaiting raw) => Acquirer (AcquirePut raw)
  | _ => t
  end.

Definition notify_not_full (ts : list thread) (waiters : list nat)
  : list thread * list nat :=
  match waiters with
  | [] => (ts, [])
  | i :: rest =>
      (match nth_error ts i with
       | Some t => set_nth i (woken t) ts
       | None => ts
       end, rest)
  end.

(** Whether this step of [acquire_frames] sends the thread to sleep,
    and whether this step of [process_frames] returns from [get]. *)
Definition falls_asleep (pc pc' : acquirer) : bool :=
  match pc, pc' with
  | AcquirePut _, AcquireWaiting _ => true
  | _, _ => false
  end.

Definition takes_frame (pc pc' : processor) : bool :=
  match pc, pc' with
  | ProcessGet, ProcessLoop => true
  | _, _ => false
  end.

Section Step.

Variable body : raw_image -> list event.      (* [Worker.process_frame] *)

Definition step (a : action) (s : system) : system * list event :=
  match a with
  | Press b w => callback (press b w) s
  | Slide value w => callback (update_exposure w value) s
  | Tick => callback update_frame s
  | WindowClose w => callback (closeEvent w) s
  | Run i src =>
      match nth_error (threads s) i with
      | None => (s, [])
      | Some (Acquirer pc) =>
          let '(g, pc', evs) := acquire_step src (ui s) pc in
          ({| ui := g;
              threads := set_nth i (Acquirer pc') (threads s);
              not_full_waiters :=
                if falls_asleep pc pc' then not_full_waiters s ++ [i]
                else not_full_waiters s |}, evs)
      | Some (Processor pc) =>
          let '(g, pc', evs) := process_step body (ui s) pc in
          let ts := set_nth i (Processor pc') (threads s) in
          let '(ts', waiters) :=
            if takes_frame pc pc' then notify_not_full ts (not_full_waiters s)
            else (ts, not_full_waiters s) in
          ({| ui := g; threads := ts'; not_full_waiters := waiters |}, evs)
      end
  end.

Inductive reachable : system -> Prop :=
| reachable_boot : reachable boot
| reachable_step : forall s a, reachable s -> reachable (fst (step a s)).

End Step.

End System.

(** ** States and worlds used as examples, and the invariants *)

Module Scenario.

Import FrameQueue Gui Worker System.

(** A world with one camera (serial number 7) where every call
    succeeds and every control is writable. *)
Definition world_ok : world := {|
  w_device_manager := Returns tt;
  w_update_device_list := Returns [7%nat];
  w_open_device_by_sn := fun _ => Returns 1%nat;
  w_resolution_writable := true;
  w_width_set := Returns tt;
  w_height_set := Returns tt;
  w_frame_rate_writable := true;
  w_frame_rate_set := Returns tt;
  w_exposure_writable := true;
  w_exposure_set := Returns tt;
  w_stream_on := Returns tt;
  w_stream_off := Returns tt;
  w_get_image := Returns {| get_status := SUCCESS; frame_id := 0 |};
  w_convert := true;
  w_numpy_array := true;
  w_save_path := None;
  w_save := Returns tt;
  w_close_device := Returns tt |}.

Definition after (m : M unit) (g : gui) : gui := snd (fst (m g)).
Definition effects (m : M unit) (g : gui) : list event := snd (m g).

(** After "Connect Camera", and after "Start Acquisition". *)
Definition gui_connected : gui := after (press btn_connect world_ok) init.
Definition gui_streaming : gui := after (press btn_start world_ok) gui_connected.

(** The queue is the one made by [__init__] and holds at most two frames. *)
Definition within_capacity {A} (q : Queue A) : Prop :=
  maxsize q = 2%Z /\ (0 <= qsize q <= 2)%Z.

Definition queue_within_capacity (g : gui) : Prop :=
  within_capacity (frame_queue g).

Definition is_normal (st : button_state) : bool :=
  match st with normal => true | disabled => false end.

(** What the states of the buttons say about the camera and the flag. *)
Definition coherent (g : gui) : bool :=
  let bs := widgets g in
  let held := Py.truthy_opt (cam g) in
  let connect_off := negb (is_normal (connect_state bs)) in
  implb (is_normal (start_state bs))
        (held && negb (is_streaming g) && connect_off)
  && implb (is_streaming g)
           (held && negb (is_normal (start_state bs)) && connect_off)
  && implb (is_normal (stop_state bs)) (held && connect_off)
  && implb (is_normal (close_state bs)) (held && connect_off).

End Scenario.

(** ** The lifecycle, read off the buttons and the flag *)

Module Lifecycle.

Import Gui System Scenario.

(** The three arrangements of the buttons that the callbacks set up:
    only "Connect Camera" enabled; "Start Acquisition" and "Close
    Camera" enabled; "Stop Acquisition", "Save Image" and "Close Camera"
    enabled. *)
Inductive StreamState : Type := Idle | Ready | Streaming.

Definition lifecycle (g : gui) : option StreamState :=
  let bs := widgets g in
  match connect_state bs, start_state bs, stop_state bs, close_state bs with
  | normal, disabled, disabled, disabled =>
      if negb (is_streaming g) && negb (is_normal (save_state bs))
      then Some Idle else None
  | disabled, normal, disabled, normal =>
      if negb (is_streaming g) && Py.truthy_opt (cam g)
      then Some Ready else None
  | disabled, disabled, normal, normal =>
      if is_streaming g && Py.truthy_opt (cam g) && is_normal (save_state bs)
      then Some Streaming else None
  | _, _, _, _ => None
  end.

(** Where an action can lead from a state. *)
Definition next (a : action) (st : StreamState) : list StreamState :=
  match a, st with
  | Press btn_connect _, Idle => [Idle; Ready]
  | Press btn_start _, Ready => [Ready; Streaming]
  | Press btn_stop _, Streaming => [Streaming; Ready]
  | Press btn_close _, Ready => [Ready; Idle]
  | Press btn_close _, Streaming => [Streaming; Idle]
  | WindowClose _, Ready => [Ready; Idle]
  | WindowClose _, Streaming => [Streaming; Idle]
  | _, _ => [st]
  end.

Definition StreamState_eqb (a b : StreamState) : bool :=
  match a, b with
  | Idle, Idle | Ready, Ready | Streaming, Streaming => true
  | _, _ => false
  end.

Definition leads_to (a : action) (st : StreamState) (g' : gui) : bool :=
  match lifecycle g' with
  | Some st' => existsb (StreamState_eqb st') (next a st)
  | None => false
  end.

(** Whether a callback starts threads. *)
Definition starts_thread (e : event) : bool :=
  match e with ThreadStart _ => true | _ => false end.

End Lifecycle.

(** ** The queue over a sequence of calls *)

Module QueueTrace.

Import FrameQueue.

Section Trace.

Context {A : Type}.

Inductive op : Type :=
| Put (item : A)
| Get
| Clear.

(** What went through the queue: the items that [put] took, in order,
    and the items that went out, in order, each with [true] when [get]
    returned it and [false] when [clear] discarded it. *)
Record log : Type := { accepted : list A; gone : list (A * bool) }.

Definition no_log : log := {| accepted := []; gone := [] |}.

(** One call; a call that has to wait leaves everything as it is. *)
Definition apply (st : Queue A * log) (o : op) : Queue A * log :=
  let (q, l) := st in
  match o with
  | Put item =>
      match put q item with
      | Some q' => (q', {| accepted := accepted l ++ [item]; gone := gone l |})
      | None => (q, l)
      end
  | Get =>
      match get q with
      | Some (item, q') =>
          (q', {| accepted := accepted l; gone := gone l ++ [(item, true)] |})
      | None => (q, l)
      end
  | Clear =>
      (clear q,
       {| accepted := accepted l;
          gone := gone l ++ map (fun item => (item, false)) (queue q) |})
  end.

Definition run (ops : list op) (st : Queue A * log) : Queue A * log :=
  fold_left apply ops st.

Definition delivered (l : log) : list A := map fst (filter snd (gone l)).

Definition is_clear (o : op) : bool :=
  match o with Clear => true | _ => false end.

End Trace.

Arguments op A : clear implicits.
Arguments log A : clear implicits.

End QueueTrace.

(** ** Several steps of a thread, and contours of a given shape *)

Module Runs.

Import Gui Worker.


(** The corners of an upright rectangle, as [findContours] lists them
    for a filled rectangle. *)
Definition rectangle (x0 y0 x1 y1 : Z) : CV.contour :=
  [(x0, y0); (x0, y1); (x1, y1); (x1, y0)].

(** The same contour elsewhere in the image. *)
Definition translate (dx dy : Z) (c : CV.contour) : CV.contour :=
  map (fun p => (CV.px p + dx, CV.py p + dy)%Z) c.

(** The two red axes of the overlay. *)
Definition axes : list Processing.shape :=
  [Processing.Line 0 360 1280 360; Processing.Line 640 0 640 720].

End Runs.

(** ** More worlds *)

Module Worlds.

Import Gui Scenario.

(** The camera is there, but writing the exposure fails with code 5. *)
Definition world_exposure_fails : world := {|
  w_device_manager := Returns tt;
  w_update_device_list := Returns [7%nat];
  w_open_device_by_sn := fun _ => Returns 1%nat;
  w_resolution_writable := true;
  w_width_set := Returns tt;
  w_height_set := Returns tt;
  w_frame_rate_writable := true;
  w_frame_rate_set := Returns tt;
  w_exposure_writable := true;
  w_exposure_set := Raises (DeviceException 5);
  w_stream_on := Returns tt;
  w_stream_off := Returns tt;
  w_get_image := Returns {| get_status := SUCCESS; frame_id := 0 |};
  w_convert := true;
  w_numpy_array := true;
  w_save_path := None;
  w_save := Returns tt;
  w_close_device := Returns tt |}.

(** The user picks the path 4 in the file dialog. *)
Definition world_saving : world := {|
  w_device_manager := Returns tt;
  w_update_device_list := Returns [7%nat];
  w_open_device_by_sn := fun _ => Returns 1%nat;
  w_resolution_writable := true;
  w_width_set := Returns tt;
  w_height_set := Returns tt;
  w_frame_rate_writable := true;
  w_frame_rate_set := Returns tt;
  w_exposure_writable := true;
  w_exposure_set := Returns tt;
  w_stream_on := Returns tt;
  w_stream_off := Returns tt;
  w_get_image := Returns {| get_status := SUCCESS; frame_id := 0 |};
  w_convert := true;
  w_numpy_array := true;
  w_save_path := Some 4%nat;
  w_save := Returns tt;
  w_close_device := Returns tt |}.

End Worlds.

(** ** What the device answers to "Connect Camera", and a stalled run *)

Module Answers.

Import Gui Worker System Scenario.

Definition succeeds {A} (o : outcome A) : bool :=
  match o with Returns _ => true | Raises _ => false end.

(** The handle that [connect_camera] ends up with when a camera is
    listed and every call that the callback makes succeeds (the
    setters are called only for the controls that are writable);
    [None] in every other world. *)
Definition connect_answer (w : world) : option camera :=
  match w_device_manager w, w_update_device_list w with
  | Returns _, Returns (sn :: _) =>
      match w_open_device_by_sn w sn with
      | Returns c =>
          if implb (w_resolution_writable w)
                   (succeeds (w_width_set w) && succeeds (w_height_set w))
             && implb (w_frame_rate_writable w) (succeeds (w_frame_rate_set w))
             && implb (w_exposure_writable w) (succeeds (w_exposure_set w))
          then Some c else None
      | Raises _ => None
      end
  | _, _ => None
  end.

(** The device manager answers and lists no camera. *)
Definition no_camera_listed (w : world) : bool :=
  match w_device_manager w, w_update_device_list w with
  | Returns _, Returns [] => true
  | _, _ => false
  end.

(** Whether [save_image] gets as far as [pil_image.save(path)]. *)
Definition reaches_save (w : world) (g : gui) (path : nat) : Prop :=
  is_streaming g = true /\ cam g <> None /\
  (exists img, w_get_image w = Returns img /\ get_status img = SUCCESS) /\
  w_convert w = true /\ w_numpy_array w = true /\
  w_save_path w = Some path.

(** A run that ends with the queue full and the first
    [acquire_frames] thread asleep in [put] with a third frame:
    "Connect Camera", "Start Acquisition", then three complete frames
    read and put by thread 0, with no frame taken meanwhile. *)
Definition frame (n : nat) : raw_image := {| get_status := SUCCESS; frame_id := n |}.

Definition run_actions (body : raw_image -> list event) (acts : list action)
  (s : system) : system :=
  fold_left (fun s a => fst (step body a s)) acts s.

Definition stalled : system :=
  run_actions (fun _ => [])
    [Press btn_connect world_ok; Press btn_start world_ok;
     Run 0 (Returns (frame 1)); Run 0 (Returns (frame 1));
     Run 0 (Returns (frame 2)); Run 0 (Returns (frame 2));
     Run 0 (Returns (frame 3)); Run 0 (Returns (frame 3))]
    boot.

End Answers.

(** * Properties *)

(** Running a callback on given attributes and a given world, and
    splitting on what is not known: the innermost test first. *)
Ltac run_callback :=
  cbv [Gui.connect_camera Gui.start_acquisition Gui.stop_acquisition
       Gui.update_exposure Gui.save_image Gui.close_camera Gui.closeEvent
       Gui.update_frame Gui.press Gui.command Gui.the_cam
       Gui.bind Gui.ret Gui.read Gui.assign Gui.emit Gui.attempt Gui.call
       Gui.try_except
       Gui.set_button Scenario.after Scenario.effects].

Ltac split_matches :=
  repeat match goal with
         | |- context [match ?x with _ => _ end] =>
             lazymatch x with
             | context [match _ with _ => _ end] => fail
             | _ => destruct x eqn:?; cbv beta iota
             end
         end.

(** Every value of the attributes that the buttons depend on. *)
Ltac each_state g :=
  destruct g as [dm [c|] [|] ex q [[|] [|] [|] [|] [|]] th1 th2].

(** ** Rescaling to sensor coordinates *)

Section Rescaling.

Import Float64 Processing.

(** The binary64 product, truncated, against the exact quotient, for
    every column and every row of the display image. *)
Lemma scale_x_table :
  forallb (fun n =>
             match to_int (mul (of_int (Z.of_nat n)) scale_x) with
             | Returns v => (v =? Z.quot (Z.of_nat n * 4096) 1280)%Z
             | Raises _ => false
             end) (seq 0 1280) = true.
Proof. vm_compute. reflexivity. Qed.

Lemma scale_y_table :
  forallb (fun n =>
             match to_int (mul (of_int (Z.of_nat n)) scale_y) with
             | Returns v => (v =? Z.quot (Z.of_nat n * 3000) 720)%Z
             | Raises _ => false
             end) (seq 0 720) = true.
Proof. vm_compute. reflexivity. Qed.

Lemma scale_x_exact (cx : Z) :
  (0 <= cx < 1280)%Z ->
  to_int (mul (of_int cx) scale_x) = Returns (Z.quot (cx * 4096) 1280).
Proof.
  intros Hcx.
  pose proof (proj1 (forallb_forall _ _) scale_x_table (Z.to_nat cx)) as H.
  cbv beta in H. rewrite Z2Nat.id in H by lia.
  assert (Hin : In (Z.to_nat cx) (seq 0 1280)) by (apply in_seq; lia).
  specialize (H Hin).
  destruct (to_int (mul (of_int cx) scale_x)) as [v|e]; [|discriminate].
  apply Z.eqb_eq in H. now subst.
Qed.

Lemma scale_y_exact (cy : Z) :
  (0 <= cy < 720)%Z ->
  to_int (mul (of_int cy) scale_y) = Returns (Z.quot (cy * 3000) 720).
Proof.
  intros Hcy.
  pose proof (proj1 (forallb_forall _ _) scale_y_table (Z.to_nat cy)) as H.
  cbv beta in H. rewrite Z2Nat.id in H by lia.
  assert (Hin : In (Z.to_nat cy) (seq 0 720)) by (apply in_seq; lia).
  specialize (H Hin).
  destruct (to_int (mul (of_int cy) scale_y)) as [v|e]; [|discriminate].
  apply Z.eqb_eq in H. now subst.
Qed.

(** C1 (as amended): for every centroid of the 1280x720 image,
    [process_frames] computes the sensor coordinates by truncation,
    not by rounding: [int(cx * (4096/1280))] is the integer part of
    [cx * 4096 / 1280], and [int(cy * (3000/720))] the integer part of
    [cy * 3000 / 720]; the binary64 arithmetic of the source introduces
    no error on this range. *)
Theorem native_coordinates_truncated (cx cy : Z) :
  (0 <= cx < 1280)%Z -> (0 <= cy < 720)%Z ->
  native_coordinates (Some (cx, cy))
  = Returns (Some (Z.quot (cx * 4096) 1280), Some (Z.quot (cy * 3000) 720)).
Proof.
  intros Hx Hy. unfold native_coordinates. cbn [Py.truthy_opt unpack obind fst snd].
  rewrite (scale_x_exact cx Hx). cbn [obind].
  rewrite (scale_y_exact cy Hy). reflexivity.
Qed.

Lemma native_coordinates_truncated_witness :
  (0 <= 3 < 1280)%Z /\ (0 <= 3 < 720)%Z /\
  native_coordinates (Some (3, 3)%Z) = Returns (Some 9%Z, Some 12%Z).
Proof.
  assert (Hx : (0 <= 3 < 1280)%Z) by lia.
  assert (Hy : (0 <= 3 < 720)%Z) by lia.
  split; [exact Hx|]. split; [exact Hy|].
  exact (native_coordinates_truncated 3 3 Hx Hy).
Defined.

(** C1 (as stated) fails: at the display centroid (3, 0) the rounded
    product is 10 (from 9.6), and the source yields 9. *)
Lemma native_coordinates_not_rounded :
  native_rounded 3 0 = (10, 0)%Z /\
  native_coordinates (Some (3, 0)%Z)
  <> Returns (Some (fst (native_rounded 3 0)), Some (snd (native_rounded 3 0))).
Proof.
  split; [reflexivity|]. vm_compute. discriminate.
Qed.

End Rescaling.

(** ** Geometry of a contour *)

Section ContourGeometry.

Import CV.

Lemma dist_nonneg (prev p : point) : (0 <= dist prev p)%R.
Proof. unfold dist. apply sqrt_pos. Qed.

Lemma path_length_nonneg (c : contour) : forall prev, (0 <= path_length prev c)%R.
Proof.
  induction c as [|p rest IH]; intros prev; cbn [path_length].
  - lra.
  - pose proof (dist_nonneg prev p). pose proof (IH p). lra.
Qed.

(** An edge of length zero joins a point to itself. *)
Lemma dist_zero (prev p : point) : dist prev p = 0%R -> p = prev.
Proof.
  unfold dist, px, py. destruct prev as [x0 y0], p as [x1 y1]. cbn [fst snd].
  intros H.
  pose proof (Z.square_nonneg (x1 - x0)) as Hx.
  pose proof (Z.square_nonneg (y1 - y0)) as Hy.
  apply sqrt_eq_0 in H; [|apply IZR_le; lia].
  apply eq_IZR in H.
  assert (Hx0 : ((x1 - x0) * (x1 - x0) = 0)%Z) by lia.
  assert (Hy0 : ((y1 - y0) * (y1 - y0) = 0)%Z) by lia.
  apply Z.mul_eq_0 in Hx0, Hy0.
  f_equal; lia.
Qed.

Lemma dxy_same (p : point) : dxy p p = 0%Z.
Proof. unfold dxy. lia. Qed.

(** A path of length zero never leaves its starting point, and so
    every term of Green's sum vanishes. *)
Lemma path_length_zero_green (weight : point -> point -> Z) (c : contour) :
  forall prev, path_length prev c = 0%R -> green weight prev c = 0%Z.
Proof.
  induction c as [|p rest IH]; intros prev H; cbn [path_length green] in *.
  - reflexivity.
  - pose proof (dist_nonneg prev p) as Hd.
    pose proof (path_length_nonneg rest p) as Hr.
    assert (Hd0 : dist prev p = 0%R) by lra.
    assert (Hr0 : path_length p rest = 0%R) by lra.
    apply dist_zero in Hd0. subst p.
    rewrite dxy_same, (IH prev Hr0). lia.
Qed.

Lemma arcLength_zero_a00 (c : contour) : arcLength c true = 0%R -> a00 c = 0%Z.
Proof.
  unfold arcLength, a00, closed_sum. destruct c as [|p0 rest]; [reflexivity|].
  apply path_length_zero_green.
Qed.

Lemma perimeter_squared_nonzero (c : contour) :
  a00 c <> 0%Z -> (arcLength c true * arcLength c true <> 0)%R.
Proof.
  intros Ha Hp. apply Ha, arcLength_zero_a00.
  destruct (Rmult_integral _ _ Hp); assumption.
Qed.

Lemma m00_zero_iff (c : contour) : m00 (moments c) == 0 <-> a00 c = 0%Z.
Proof.
  unfold moments, Qeq. cbn [m00 Qnum Qden]. split; intros H; [|rewrite H; reflexivity].
  destruct (a00 c); cbn in H |- *; lia.
Qed.

Lemma m00_test (c : contour) :
  negb (Qeq_bool (m00 (moments c)) 0) = negb (a00 c =? 0)%Z.
Proof.
  f_equal. apply eq_true_iff_eq.
  rewrite Qeq_bool_iff, m00_zero_iff, Z.eqb_eq. reflexivity.
Qed.

End ContourGeometry.

(** ** [max] with a key *)

Section PyMax.

Context {A : Type} (key : A -> Q).

Lemma max_from_spec (l : list A) : forall best,
  In (Py.max_from key best l) (best :: l) /\
  key best <= key (Py.max_from key best l) /\
  (forall y, In y l -> key y <= key (Py.max_from key best l)).
Proof.
  induction l as [|x rest IH]; intros best; cbn [Py.max_from].
  - repeat split; [now left | apply Qle_refl | intros y []].
  - destruct (Qle_bool (key x) (key best)) eqn:Hle.
    + apply Qle_bool_iff in Hle.
      destruct (IH best) as (Hin & Hb & Hall). repeat split.
      * destruct Hin as [<-|Hin]; [now left | now right; right].
      * exact Hb.
      * intros y [<-|Hy]; [now apply Qle_trans with (key best) | now apply Hall].
    + assert (Hlt : key best < key x).
      { apply Qnot_le_lt. intros H. apply Qle_bool_iff in H. congruence. }
      destruct (IH x) as (Hin & Hb & Hall). repeat split.
      * destruct Hin as [<-|Hin]; [now right; left | now right; right].
      * apply Qle_trans with (key x); [now apply Qlt_le_weak | exact Hb].
      * intros y [<-|Hy]; [exact Hb | now apply Hall].
Qed.

Lemma max_spec (l : list A) (x : A) :
  Py.max l key = Returns x ->
  In x l /\ forall y, In y l -> key y <= key x.
Proof.
  destruct l as [|x0 rest]; cbn [Py.max]; [discriminate|].
  intros [= <-]. destruct (max_from_spec rest x0) as (Hin & Hb & Hall).
  split; [exact Hin|]. intros y [<-|Hy]; [exact Hb | now apply Hall].
Qed.

Lemma max_nonempty (l : list A) :
  Py.truthy_list l = true -> exists x, Py.max l key = Returns x.
Proof.
  destruct l as [|x0 rest]; cbn; [discriminate|]. intros _. eauto.
Qed.

End PyMax.

(** ** The detector *)

Section DetectorProperties.

Import CV Detector.

Lemma measure_not_found (c : contour) :
  a00 c = 0%Z -> measure c = Returns not_found.
Proof.
  intros H. unfold measure. rewrite m00_test, H. reflexivity.
Qed.

Lemma measure_found (c : contour) :
  a00 c <> 0%Z ->
  measure c
  = Returns (Some (Py.int (m10 (moments c) / m00 (moments c)),
                   Py.int (m01 (moments c) / m00 (moments c))),
             Py.Float (sqrt (4 * Q2R (contourArea c) / PI)),
             Py.Float (4 * PI * (Q2R (contourArea c)
                                 / (arcLength c true * arcLength c true)))).
Proof.
  intros H. unfold measure. rewrite m00_test.
  apply Z.eqb_neq in H as Hb. rewrite Hb. cbn [negb].
  unfold Py.truediv.
  destruct (Req_dec_T (arcLength c true * arcLength c true) 0) as [H0|_].
  - now apply perimeter_squared_nonzero in H0.
  - reflexivity.
Qed.

Lemma measure_returns (c : contour) : forall e, measure c <> Raises e.
Proof.
  intros e. destruct (Z.eq_dec (a00 c) 0) as [H|H].
  - rewrite (measure_not_found c H). discriminate.
  - rewrite (measure_found c H). discriminate.
Qed.

Variables Image Gray Binary : Type.
Variable cvtColor : Image -> Gray.
Variable threshold : Gray -> Binary.
Variable findContours : Binary -> list contour.

Local Abbreviation contours image := (findContours (threshold (cvtColor image))).
Local Abbreviation detect := (calculate_centroid cvtColor threshold findContours).
Local Abbreviation largest_of image c :=
  (Py.max (contours image) contourArea = Returns c).

Lemma calculate_centroid_empty (image : Image) :
  contours image = [] -> detect image = Returns not_found.
Proof. intros H. unfold calculate_centroid. rewrite H. reflexivity. Qed.

Lemma calculate_centroid_largest (image : Image) (c : contour) :
  largest_of image c -> detect image = measure c.
Proof.
  intros H. unfold calculate_centroid.
  destruct (contours image) as [|c0 rest]; [discriminate|].
  cbn [Py.truthy_list]. rewrite H. reflexivity.
Qed.

Lemma contours_cases (image : Image) :
  contours image = [] \/ exists c, largest_of image c.
Proof.
  destruct (contours image) as [|c0 rest]; [now left|right].
  cbn [Py.max]. eauto.
Qed.

(** C2: the detector never divides by zero.  For every image the call
    returns (no exception, so no [ZeroDivisionError]); whenever the
    zeroth moment of the largest contour is not zero, the divisor
    [perimeter * perimeter] of the circularity is not zero either; and a
    largest contour of perimeter zero gives "not found". *)
Theorem detector_never_divides_by_zero (image : Image) :
  (forall e, detect image <> Raises e) /\
  (forall c, largest_of image c ->
     (~ m00 (moments c) == 0 ->
      (arcLength c true * arcLength c true <> 0)%R) /\
     (arcLength c true = 0%R -> detect image = Returns not_found)).
Proof.
  split.
  - intros e. destruct (contours_cases image) as [H|[c H]].
    + rewrite (calculate_centroid_empty image H). discriminate.
    + rewrite (calculate_centroid_largest image c H). apply measure_returns.
  - intros c H. split.
    + intros Hm. apply perimeter_squared_nonzero.
      intros Ha. apply Hm. now apply m00_zero_iff.
    + intros Hp. rewrite (calculate_centroid_largest image c H).
      apply measure_not_found. now apply arcLength_zero_a00.
Qed.

(** C3: the detector answers "not found" exactly when there is no
    contour or the zeroth moment of the largest contour is zero; in
    every other case it returns a centroid, a diameter and a
    circularity. *)
Theorem not_found_exactly_when (image : Image) :
  (detect image = Returns not_found <->
   contours image = [] \/
   exists c, largest_of image c /\ m00 (moments c) == 0) /\
  (~ (contours image = [] \/
      exists c, largest_of image c /\ m00 (moments c) == 0) ->
   exists cx cy diameter circularity,
     detect image
     = Returns (Some (cx, cy), Py.Float diameter, Py.Float circularity)).
Proof.
  split.
  - split.
    + intros Hd. destruct (contours_cases image) as [H|[c H]]; [now left|right].
      exists c. split; [exact H|]. apply m00_zero_iff.
      destruct (Z.eq_dec (a00 c) 0) as [Ha|Ha]; [exact Ha|exfalso].
      rewrite (calculate_centroid_largest image c H), (measure_found c Ha) in Hd.
      discriminate.
    + intros [H|[c [H Hm]]].
      * now apply calculate_centroid_empty.
      * rewrite (calculate_centroid_largest image c H).
        apply measure_not_found. now apply m00_zero_iff.
  - intros Hno. destruct (contours_cases image) as [H|[c H]].
    + exfalso. apply Hno. now left.
    + assert (Ha : a00 c <> 0%Z).
      { intros Ha. apply Hno. right. exists c. split; [exact H|].
        now apply m00_zero_iff. }
      rewrite (calculate_centroid_largest image c H), (measure_found c Ha).
      eauto.
Qed.

(** C4: when an object is found, the centroid is [(m10/m00, m01/m00)]
    truncated to integers, the diameter is [sqrt(4 * area / pi)] and
    the circularity is [4 * pi * area / perimeter^2], all taken on the
    contour that [max] selects: a contour of the image whose area no
    other contour exceeds. *)
Theorem found_outputs (image : Image) (c : contour) :
  largest_of image c ->
  ~ m00 (moments c) == 0 ->
  detect image
  = Returns (Some (Py.int (m10 (moments c) / m00 (moments c)),
                   Py.int (m01 (moments c) / m00 (moments c))),
             Py.Float (sqrt (4 * Q2R (contourArea c) / PI)),
             Py.Float (4 * PI * Q2R (contourArea c) / (arcLength c true) ^ 2))
  /\ In c (contours image)
  /\ (forall c', In c' (contours image) -> contourArea c' <= contourArea c).
Proof.
  intros H Hm.
  assert (Ha : a00 c <> 0%Z) by (intros Ha; apply Hm; now apply m00_zero_iff).
  split.
  - rewrite (calculate_centroid_largest image c H), (measure_found c Ha).
    replace (arcLength c true ^ 2)%R with (arcLength c true * arcLength c true)%R
      by ring.
    do 3 f_equal. unfold Rdiv. ring.
  - now apply max_spec.
Qed.

(** C10: "not found" is the triple [(None, 0, 0)] with the two numbers
    being the int zero; a returned detection has no centroid only as
    that triple; and the caller takes the branch of a found object on
    the centroid alone, whatever the two numbers are. *)
Theorem not_found_is_none_zero_zero (image : Image) :
  (contours image = [] \/
   (exists c, largest_of image c /\ m00 (moments c) == 0) ->
   detect image = Returns (None, Py.Int 0, Py.Int 0)) /\
  (forall d, detect image = Returns d ->
     (fst (fst d) = None <-> d = (None, Py.Int 0, Py.Int 0))) /\
  (forall centroid,
     Processing.native_coordinates centroid = Returns (None, None)
     <-> centroid = None) /\
  (forall centroid diameter circularity native,
     Processing.overlay (centroid, diameter, circularity) native
     = Returns [Processing.Line 0 360 1280 360; Processing.Line 640 0 640 720]
     <-> centroid = None).
Proof.
  split; [|split; [|split]].
  - intros [H|[c [H Hm]]].
    + now apply calculate_centroid_empty.
    + rewrite (calculate_centroid_largest image c H).
      apply measure_not_found. now apply m00_zero_iff.
  - intros d Hd. split; [|intros ->; reflexivity].
    destruct (contours_cases image) as [H|[c H]].
    + rewrite (calculate_centroid_empty image H) in Hd.
      injection Hd as <-. reflexivity.
    + rewrite (calculate_centroid_largest image c H) in Hd.
      destruct (Z.eq_dec (a00 c) 0) as [Ha|Ha].
      * rewrite (measure_not_found c Ha) in Hd. injection Hd as <-. reflexivity.
      * rewrite (measure_found c Ha) in Hd. injection Hd as <-. discriminate.
  - intros [[cx cy]|]; split; try reflexivity; try discriminate.
    unfold Processing.native_coordinates.
    cbn [Py.truthy_opt Processing.unpack obind fst snd].
    destruct (Float64.to_int _); cbn [obind]; [|discriminate].
    destruct (Float64.to_int _); cbn [obind]; discriminate.
  - intros [[cx cy]|] diameter circularity native;
      split; try reflexivity; discriminate.
Qed.

End DetectorProperties.

(** A square of side 10 as its four corners: it is found, centred at
    (5, 5), with area 100. *)
Example square_contour_measured :
  let square := [(0, 0); (0, 10); (10, 10); (10, 0)]%Z in
  CV.contourArea square == 100 /\
  exists diameter circularity,
    Detector.measure square
    = Returns (Some (5, 5)%Z, Py.Float diameter, Py.Float circularity).
Proof.
  cbv zeta. split; [reflexivity|].
  rewrite measure_found by (vm_compute; discriminate).
  do 2 eexists. reflexivity.
Qed.

Lemma found_outputs_witness :
  let square := [(0, 0); (0, 10); (10, 10); (10, 0)]%Z in
  let image := [[(3, 3)%Z]; square] in
  Py.max image CV.contourArea = Returns square /\
  ~ CV.m00 (CV.moments square) == 0 /\
  Detector.calculate_centroid (fun i => i) (fun g => g) (fun b => b) image
  = Returns (Some (5, 5)%Z,
             Py.Float (sqrt (4 * Q2R (CV.contourArea square) / PI)),
             Py.Float (4 * PI * Q2R (CV.contourArea square)
                       / (CV.arcLength square true) ^ 2)).
Proof.
  cbv zeta.
  assert (Hmax : Py.max [[(3, 3)%Z]; [(0, 0); (0, 10); (10, 10); (10, 0)]%Z]
                   CV.contourArea
                 = Returns [(0, 0); (0, 10); (10, 10); (10, 0)]%Z) by reflexivity.
  assert (Hm00 : ~ CV.m00 (CV.moments [(0, 0); (0, 10); (10, 10); (10, 0)]%Z) == 0)
    by (vm_compute; discriminate).
  split; [exact Hmax|]. split; [exact Hm00|].
  exact (proj1 (found_outputs (list CV.contour) (list CV.contour) (list CV.contour)
                  (fun i => i) (fun g => g) (fun b => b) _ _ Hmax Hm00)).
Defined.

(** The same square seen by [process_frames]: the marker around
    (5, 5) and the label with the sensor coordinates (16, 20), that is
    [int(5 * 3.2)] and [int(5 * 4.1666...)]. *)
Example square_overlay :
  let square := [(0, 0); (0, 10); (10, 10); (10, 0)]%Z in
  exists diameter circularity,
    Processing.process_image (fun i => i) (fun g => g) (fun b => b) [square]
    = Returns [Processing.Line 0 360 1280 360; Processing.Line 640 0 640 720;
               Processing.Ellipse 0 0 10 10;
               Processing.TextCoordinates 15 15 (Some 16%Z) (Some 20%Z);
               Processing.TextDiameter 10 20 (Py.Float diameter);
               Processing.TextCircularity 10 40 (Py.Float circularity)].
Proof.
  cbv zeta. unfold Processing.process_image, Detector.calculate_centroid.
  cbn [Py.truthy_list Py.max Py.max_from obind].
  rewrite measure_found by (vm_compute; discriminate).
  do 2 eexists. cbn [obind fst snd].
  change (Py.int _) with 5%Z.
  change (Processing.native_coordinates (Some (5, 5)%Z))
    with (Returns (Some 16%Z, Some 20%Z)).
  reflexivity.
Qed.

(** ** The callbacks *)

Section Callbacks.

Import FrameQueue Gui Scenario.

Lemma start_acquisition_without_camera (w : world) (g : gui) :
  cam g = None ->
  start_acquisition w g = (Returns tt, g, [Showwarning CameraNotConnected]).
Proof. intros H. run_callback. rewrite H. reflexivity. Qed.

Lemma update_exposure_streaming (w : world) (value : Z) (g : gui) (c : camera) :
  cam g = Some c -> is_streaming g = true ->
  after (update_exposure w value) g
  = with_current_exposure (Float64.of_int value) g /\
  effects (update_exposure w value) g
  = Device (ExposureTimeSet (Float64.of_int value))
    :: match w_exposure_set w with
       | Returns _ => [Print (ExposureTimeUpdatedTo (Float64.of_int value))]
       | Raises e => [Print (FailedToUpdateExposureTime e)]
       end.
Proof.
  intros Hc Hs. run_callback. rewrite Hc, Hs.
  destruct (w_exposure_set w) as [[]|e]; split; reflexivity.
Qed.

Lemma update_exposure_idle (w : world) (value : Z) (g : gui) :
  cam g = None \/ is_streaming g = false ->
  update_exposure w value g = (Returns tt, g, []).
Proof.
  intros H. run_callback.
  destruct (cam g); [|reflexivity].
  destruct H as [H|H]; [discriminate|]. rewrite H. reflexivity.
Qed.

(** C5 (as amended): [update_exposure] does not clamp, and stores
    only while streaming.  With a camera held and the stream on, the
    stored exposure becomes the passed value as it is, the same value is
    written to the device, and it stays stored when the write fails; for
    a value of the slider's range that is the clamped value.  Without a
    camera or with the stream off nothing is stored and nothing is
    written. *)
Theorem update_exposure_stores_when_streaming (w : world) (value : Z) (g : gui) :
  (cam g <> None /\ is_streaming g = true ->
   current_exposure (after (update_exposure w value) g) = Float64.of_int value /\
   In (Device (ExposureTimeSet (Float64.of_int value)))
      (effects (update_exposure w value) g) /\
   ((1000 <= value <= 100000)%Z ->
    current_exposure (after (update_exposure w value) g)
    = Float64.of_int (clamp value))) /\
  (cam g = None \/ is_streaming g = false ->
   after (update_exposure w value) g = g /\
   effects (update_exposure w value) g = []).
Proof.
  split.
  - intros [Hc Hs]. destruct (cam g) as [c|] eqn:Hcam; [|contradiction].
    destruct (update_exposure_streaming w value g c Hcam Hs) as [Hg He].
    rewrite Hg, He. repeat split.
    + now left.
    + intros Hr. unfold clamp. cbn [current_exposure with_current_exposure].
      f_equal. lia.
  - intros H. unfold after, effects.
    rewrite (update_exposure_idle w value g H). split; reflexivity.
Qed.

(** C5 (as stated) fails twice: while streaming, 500 is stored as 500,
    not as 1000; and with the stream off, 200000 leaves the stored
    10000 as it is, where the clamped 100000 was promised. *)
Lemma update_exposure_does_not_clamp :
  clamp 500 = 1000%Z /\
  current_exposure (after (update_exposure world_ok 500) gui_streaming)
  = Float64.of_int 500 /\
  current_exposure (after (update_exposure world_ok 500) gui_streaming)
  <> Float64.of_int (clamp 500) /\
  clamp 200000 = 100000%Z /\
  is_streaming gui_connected = false /\
  current_exposure (after (update_exposure world_ok 200000) gui_connected)
  = Float64.of_int 10000 /\
  current_exposure (after (update_exposure world_ok 200000) gui_connected)
  <> Float64.of_int (clamp 200000).
Proof. repeat split; vm_compute; (reflexivity || discriminate). Qed.

(** The state and the effects of "Stop Acquisition", case by case. *)
Lemma stop_acquisition_guard (w : world) (g : gui) :
  cam g = None \/ is_streaming g = false ->
  stop_acquisition w g = (Returns tt, g, []).
Proof.
  intros H. run_callback. destruct (cam g); [|reflexivity].
  destruct H as [H|H]; [discriminate|]. rewrite H. reflexivity.
Qed.

Lemma stop_acquisition_done (w : world) (g : gui) (c : camera) :
  cam g = Some c -> is_streaming g = true -> w_stream_off w = Returns tt ->
  stop_acquisition w g
  = (Returns tt,
     with_frame_queue (clear (frame_queue g))
       (with_widgets (config btn_stop disabled (config btn_start normal (widgets g)))
          (with_is_streaming false g)),
     [Device StreamOff; Showinfo AcquisitionStopped]).
Proof. intros Hc Hs Hw. run_callback. rewrite Hc, Hs, Hw. reflexivity. Qed.

Lemma stop_acquisition_failed (w : world) (g : gui) (c : camera) (e : exn) :
  cam g = Some c -> is_streaming g = true -> w_stream_off w = Raises e ->
  stop_acquisition w g
  = (Returns tt, g, [Device StreamOff; Showerror (FailedToStopAcquisition e)]).
Proof. intros Hc Hs Hw. run_callback. rewrite Hc, Hs, Hw. reflexivity. Qed.

(** The same for "Close Camera". *)
Lemma close_camera_guard (w : world) (g : gui) :
  cam g = None -> close_camera w g = (Returns tt, g, []).
Proof. intros H. run_callback. rewrite H. reflexivity. Qed.

Lemma close_camera_cases (w : world) (g : gui) (c : camera) :
  cam g = Some c ->
  (reports (effects (close_camera w) g) = false /\
   cam (after (close_camera w) g) = None /\
   is_streaming (after (close_camera w) g) = false /\
   frame_queue (after (close_camera w) g) = frame_queue g /\
   widgets (after (close_camera w) g)
   = {| connect_state := normal; start_state := disabled;
        stop_state := disabled; save_state := disabled;
        close_state := disabled |}) \/
  (reports (effects (close_camera w) g) = true /\
   after (close_camera w) g = g).
Proof.
  intros Hc. run_callback. rewrite Hc.
  destruct (is_streaming g);
    [destruct (w_stream_off w) as [[]|e1]|];
    try destruct (w_close_device w) as [[]|e2];
    cbn; auto 10.
Qed.

(** C8: "Stop Acquisition" and "Close Camera" are idempotent.  When an
    invocation reports no error, the next one in a row has no effect at
    all: it reports nothing and leaves every attribute (the flag, the
    camera, the queue, the buttons) as the first one left it, whatever
    the device would answer. *)
Theorem stop_and_close_idempotent (w1 w2 : world) (g : gui) :
  (reports (effects (stop_acquisition w1) g) = false ->
   stop_acquisition w2 (after (stop_acquisition w1) g)
   = (Returns tt, after (stop_acquisition w1) g, [])) /\
  (reports (effects (close_camera w1) g) = false ->
   close_camera w2 (after (close_camera w1) g)
   = (Returns tt, after (close_camera w1) g, [])).
Proof.
  split.
  - destruct (cam g) as [c|] eqn:Hc.
    + destruct (is_streaming g) eqn:Hs.
      * destruct (w_stream_off w1) as [[]|e] eqn:Hw.
        -- unfold after, effects.
           rewrite (stop_acquisition_done w1 g c Hc Hs Hw). cbn [fst snd].
           intros _. apply stop_acquisition_guard. now right.
        -- unfold after, effects.
           rewrite (stop_acquisition_failed w1 g c e Hc Hs Hw). discriminate.
      * unfold after, effects.
        rewrite (stop_acquisition_guard w1 g (or_intror Hs)). cbn [fst snd].
        intros _. apply stop_acquisition_guard. now right.
    + unfold after, effects.
      rewrite (stop_acquisition_guard w1 g (or_introl Hc)). cbn [fst snd].
      intros _. apply stop_acquisition_guard. now left.
  - destruct (cam g) as [c|] eqn:Hc.
    + destruct (close_camera_cases w1 g c Hc) as [(_ & Hnone & _)|(Hr & _)].
      * intros _. now apply close_camera_guard.
      * rewrite Hr. discriminate.
    + unfold after. rewrite (close_camera_guard w1 g Hc). cbn [fst snd].
      intros _. now apply close_camera_guard.
Qed.

End Callbacks.

(** ** The queue and the buttons along every run *)

Section Runs.

Import FrameQueue Gui Worker System Scenario.

(** *** The three operations on the queue *)

Lemma new_within_capacity {A} : within_capacity (@new A 2).
Proof. unfold within_capacity, new, qsize. cbn. lia. Qed.

Lemma put_appends {A} (q q' : Queue A) (item : A) :
  put q item = Some q' -> maxsize q' = maxsize q /\ queue q' = queue q ++ [item].
Proof.
  unfold put. destruct (full q); [discriminate|]. intros [= <-]. split; reflexivity.
Qed.

Lemma put_waits_iff_full {A} (q : Queue A) (item : A) :
  within_capacity q -> (put q item = None <-> qsize q = 2%Z).
Proof.
  intros [Hm Hs]. unfold put, full. rewrite Hm.
  destruct (2 <=? qsize q)%Z eqn:H; cbn [andb Z.ltb Z.compare].
  - apply Z.leb_le in H. split; [lia | reflexivity].
  - apply Z.leb_gt in H. split; [discriminate | lia].
Qed.

Lemma put_within_capacity {A} (q q' : Queue A) (item : A) :
  within_capacity q -> put q item = Some q' -> within_capacity q'.
Proof.
  intros [Hm Hs]. unfold put, full. rewrite Hm.
  destruct (2 <=? qsize q)%Z eqn:H; cbn [andb Z.ltb Z.compare]; [discriminate|].
  apply Z.leb_gt in H. intros [= <-]. unfold within_capacity, qsize in *.
  cbn [maxsize queue]. rewrite length_app. cbn [length]. lia.
Qed.

Lemma get_within_capacity {A} (q q' : Queue A) (item : A) :
  within_capacity q -> get q = Some (item, q') -> within_capacity q'.
Proof.
  intros [Hm Hs]. unfold get. destruct (queue q) as [|x rest] eqn:Hq; [discriminate|].
  intros [= <- <-]. unfold within_capacity, qsize in *. rewrite Hq in Hs.
  cbn [maxsize queue length] in *. lia.
Qed.

Lemma clear_within_capacity {A} (q : Queue A) :
  maxsize q = 2%Z -> within_capacity (clear q) /\ qsize (clear q) = 0%Z.
Proof. intros H. unfold within_capacity, clear, qsize. cbn. lia. Qed.

(** *** What a callback and a thread do to the queue *)

Lemma press_queue (b : button) (w : world) (g : gui) :
  frame_queue (after (press b w) g) = frame_queue g \/
  frame_queue (after (press b w) g) = clear (frame_queue g).
Proof.
  destruct b; run_callback; split_matches; cbn; auto.
Qed.

Lemma update_exposure_queue (w : world) (value : Z) (g : gui) :
  frame_queue (after (update_exposure w value) g) = frame_queue g.
Proof. run_callback; split_matches; reflexivity. Qed.

Lemma update_frame_queue (g : gui) :
  frame_queue (after update_frame g) = frame_queue g.
Proof. run_callback; split_matches; reflexivity. Qed.

Lemma closeEvent_queue (w : world) (g : gui) :
  frame_queue (after (closeEvent w) g) = frame_queue g.
Proof. run_callback; split_matches; reflexivity. Qed.

Lemma acquire_step_queue (src : outcome raw_image) (g : gui) (pc : acquirer) :
  queue_within_capacity g ->
  queue_within_capacity (fst (fst (acquire_step src g pc))).
Proof.
  intros H. unfold acquire_step. destruct pc as [|raw|raw|].
  - split_matches; exact H.
  - destruct (put (frame_queue g) raw) as [q|] eqn:Hp; [|exact H].
    exact (put_within_capacity _ _ _ H Hp).
  - exact H.
  - exact H.
Qed.

Lemma process_step_queue (body : raw_image -> list event) (g : gui) (pc : processor) :
  queue_within_capacity g ->
  queue_within_capacity (fst (fst (process_step body g pc))).
Proof.
  intros H. unfold process_step. destruct pc.
  - destruct (is_streaming g); exact H.
  - destruct (get (frame_queue g)) as [[raw q]|] eqn:Hg; [|exact H].
    exact (get_within_capacity _ _ _ H Hg).
  - exact H.
Qed.

Lemma callback_ui (m : M unit) (s : system) :
  ui (fst (callback m s)) = after m (ui s).
Proof.
  unfold callback, after. destruct (m (ui s)) as [[r g] evs]. reflexivity.
Qed.

Lemma run_ui (body : raw_image -> list event) (i : nat)
  (src : outcome raw_image) (s : system) :
  ui (fst (step body (Run i src) s))
  = match nth_error (threads s) i with
    | None => ui s
    | Some (Acquirer pc) => fst (fst (acquire_step src (ui s) pc))
    | Some (Processor pc) => fst (fst (process_step body (ui s) pc))
    end.
Proof.
  cbn [step]. destruct (nth_error (threads s) i) as [[pc|pc]|]; [| |reflexivity].
  - destruct (acquire_step src (ui s) pc) as [[g pc'] evs]. reflexivity.
  - destruct (process_step body (ui s) pc) as [[g pc'] evs]. cbn [fst].
    destruct (takes_frame pc pc'); [|reflexivity].
    destruct (notify_not_full _ _). reflexivity.
Qed.

Lemma step_queue (body : raw_image -> list event) (a : action) (s : system) :
  queue_within_capacity (ui s) ->
  queue_within_capacity (ui (fst (step body a s))).
Proof.
  intros H. destruct a as [b w|value w| |w|i src]; cbn [step].
  - rewrite callback_ui. unfold queue_within_capacity.
    destruct (press_queue b w (ui s)) as [->| ->]; [exact H|].
    apply clear_within_capacity, H.
  - rewrite callback_ui. unfold queue_within_capacity.
    now rewrite update_exposure_queue.
  - rewrite callback_ui. unfold queue_within_capacity.
    now rewrite update_frame_queue.
  - rewrite callback_ui. unfold queue_within_capacity.
    now rewrite closeEvent_queue.
  - change (queue_within_capacity (ui (fst (step body (Run i src) s)))).
    rewrite run_ui.
    destruct (nth_error (threads s) i) as [[pc|pc]|]; [| |exact H].
    + now apply acquire_step_queue.
    + now apply process_step_queue.
Qed.

Lemma reachable_queue (body : raw_image -> list event) (s : system) :
  reachable body s -> queue_within_capacity (ui s).
Proof.
  induction 1 as [|s a _ IH].
  - exact new_within_capacity.
  - now apply step_queue.
Qed.

(** C6: the frame queue is built with capacity 2; in every state that
    the program reaches, whatever the buttons pressed and however the
    threads interleave, it holds between 0 and 2 frames; [put] on a
    queue of that capacity either waits (exactly when two frames are
    queued, and nothing is lost) or appends the frame behind the ones
    queued; and [clear], as "Stop Acquisition" calls it once the stream
    is off, leaves it empty. *)
Theorem frame_queue_bounded :
  maxsize (frame_queue init) = 2%Z /\
  (forall body s, reachable body s ->
     maxsize (frame_queue (ui s)) = 2%Z /\
     (0 <= qsize (frame_queue (ui s)) <= 2)%Z) /\
  (forall (q : Queue raw_image) item, within_capacity q ->
     (put q item = None /\ qsize q = 2%Z) \/
     (exists q', put q item = Some q' /\ queue q' = queue q ++ [item] /\
                 within_capacity q')) /\
  (forall q : Queue raw_image, qsize (clear q) = 0%Z) /\
  (forall w g c, cam g = Some c -> is_streaming g = true ->
     w_stream_off w = Returns tt ->
     qsize (frame_queue (after (stop_acquisition w) g)) = 0%Z).
Proof.
  split; [reflexivity|]. split; [|split; [|split]].
  - intros body s H. exact (reachable_queue body s H).
  - intros q item H. destruct (put q item) as [q'|] eqn:Hp.
    + right. exists q'. split; [reflexivity|]. split.
      * now apply put_appends in Hp.
      * exact (put_within_capacity _ _ _ H Hp).
    + left. split; [reflexivity|]. now apply (put_waits_iff_full q item H).
  - intros q. reflexivity.
  - intros w g c Hc Hs Hw. unfold after.
    rewrite (stop_acquisition_done w g c Hc Hs Hw). reflexivity.
Qed.

End Runs.

Section Buttons.

Import FrameQueue Gui Worker System Scenario.

Lemma press_coherent (b : button) (w : world) (g : gui) :
  coherent g = true -> coherent (after (press b w) g) = true.
Proof.
  intros H. each_state g; try discriminate H;
    destruct b; run_callback; cbn; split_matches; reflexivity.
Qed.

Lemma update_exposure_coherent (w : world) (value : Z) (g : gui) :
  coherent g = true -> coherent (after (update_exposure w value) g) = true.
Proof.
  intros H. each_state g; try discriminate H;
    run_callback; cbn; split_matches; reflexivity.
Qed.

Lemma update_frame_coherent (g : gui) :
  coherent g = true -> coherent (after update_frame g) = true.
Proof.
  intros H. each_state g; try discriminate H;
    run_callback; cbn; split_matches; reflexivity.
Qed.

Lemma closeEvent_coherent (w : world) (g : gui) :
  coherent g = true -> coherent (after (closeEvent w) g) = true.
Proof.
  intros H. each_state g; try discriminate H;
    run_callback; cbn; split_matches; reflexivity.
Qed.

Lemma with_frame_queue_coherent (q : Queue raw_image) (g : gui) :
  coherent (with_frame_queue q g) = coherent g.
Proof. reflexivity. Qed.

Lemma acquire_step_coherent (src : outcome raw_image) (g : gui) (pc : acquirer) :
  coherent (fst (fst (acquire_step src g pc))) = coherent g.
Proof. unfold acquire_step. split_matches; reflexivity. Qed.

Lemma process_step_coherent (body : raw_image -> list event) (g : gui) (pc : processor) :
  coherent (fst (fst (process_step body g pc))) = coherent g.
Proof. unfold process_step. split_matches; reflexivity. Qed.

Lemma step_coherent (body : raw_image -> list event) (a : action) (s : system) :
  coherent (ui s) = true -> coherent (ui (fst (step body a s))) = true.
Proof.
  intros H. destruct a as [b w|value w| |w|i src]; cbn [step];
    try rewrite callback_ui.
  - now apply press_coherent.
  - now apply update_exposure_coherent.
  - now apply update_frame_coherent.
  - now apply closeEvent_coherent.
  - change (coherent (ui (fst (step body (Run i src) s))) = true).
    rewrite run_ui.
    destruct (nth_error (threads s) i) as [[pc|pc]|]; [| |exact H].
    + now rewrite acquire_step_coherent.
    + now rewrite process_step_coherent.
Qed.

Lemma reachable_coherent (body : raw_image -> list event) (s : system) :
  reachable body s -> coherent (ui s) = true.
Proof.
  induction 1 as [|s a _ IH]; [reflexivity | now apply step_coherent].
Qed.

Lemma press_disabled (b : button) (w : world) (g : gui) :
  state_of (widgets g) b = disabled -> press b w g = (Returns tt, g, []).
Proof. intros H. unfold press, bind, read, ret. rewrite H. reflexivity. Qed.

(** C7 (as amended): the invocations that the state does not permit are
    turned away in two ways, and only one of them reports.
    [start_acquisition] with no camera held (before "Connect Camera" or
    after "Close Camera") shows the warning "Camera not connected." and
    changes nothing.  Neither [start_acquisition] while streaming nor
    [connect_camera] outside the idle state is checked by the method; it
    is the buttons that keep them away: pressing a disabled button does
    nothing and reports nothing, and in every state the program reaches
    "Start Acquisition" is enabled only with a camera held and the
    stream off, "Connect Camera" only with the stream off and
    "Start Acquisition" disabled. *)
Theorem start_and_connect_guarded :
  (forall w g, cam g = None ->
     start_acquisition w g = (Returns tt, g, [Showwarning CameraNotConnected])) /\
  (forall b w g, state_of (widgets g) b = disabled ->
     press b w g = (Returns tt, g, [])) /\
  (forall body s, reachable body s ->
     (start_state (widgets (ui s)) = normal ->
      cam (ui s) <> None /\ is_streaming (ui s) = false) /\
     (connect_state (widgets (ui s)) = normal ->
      is_streaming (ui s) = false /\ start_state (widgets (ui s)) = disabled)).
Proof.
  split; [exact start_acquisition_without_camera|].
  split; [exact press_disabled|].
  intros body s H. apply reachable_coherent in H.
  generalize H. generalize (ui s). intros g. 
  each_state g; cbn; intros Hc; try discriminate Hc;
    split; intros Hb; try discriminate Hb; split; congruence.
Qed.

(** C7 (as stated) fails: while streaming, [start_acquisition] with a
    device that answers reports no error and starts two more threads;
    and [connect_camera] on a connected camera reports no error either
    and opens the device again.  Through the buttons the same two
    invocations are silent: nothing is reported. *)
Lemma start_while_streaming_not_rejected :
  cam gui_streaming = Some 1%nat /\ is_streaming gui_streaming = true /\
  reports (effects (start_acquisition world_ok) gui_streaming) = false /\
  In (ThreadStart target_acquire_frames)
     (effects (start_acquisition world_ok) gui_streaming) /\
  cam gui_connected = Some 1%nat /\
  reports (effects (connect_camera world_ok) gui_connected) = false /\
  In (Device (OpenDeviceBySn 7))
     (effects (connect_camera world_ok) gui_connected) /\
  effects (press btn_start world_ok) gui_streaming = [] /\
  effects (press btn_connect world_ok) gui_streaming = [].
Proof.
  repeat split; try reflexivity; vm_compute; tauto.
Qed.

End Buttons.

(** ** The acquisition thread *)

Section Acquisition.

Import FrameQueue Gui Worker System Scenario.


(** *** A thread asleep in [put] *)

Lemma nth_error_set_nth_same {A} (x : A) (l : list A) : forall i y,
  nth_error l i = Some y -> nth_error (set_nth i x l) i = Some x.
Proof.
  induction l as [|z rest IH]; intros [|i] y H; cbn in *; try discriminate.
  - reflexivity.
  - now apply IH with y.
Qed.

Lemma nth_error_set_nth_other {A} (x : A) (l : list A) : forall i k,
  k <> i -> nth_error (set_nth i x l) k = nth_error l k.
Proof.
  induction l as [|z rest IH]; intros [|i] [|k] H; cbn; try reflexivity.
  - contradiction.
  - apply IH. congruence.
Qed.

Lemma set_nth_id {A} (x : A) (l : list A) : forall i,
  nth_error l i = Some x -> set_nth i x l = l.
Proof.
  induction l as [|z rest IH]; intros [|i] H; cbn in *; try discriminate.
  - now injection H as ->.
  - f_equal. now apply IH.
Qed.

Lemma callback_keeps_threads (m : M unit) (s : system) (i : nat) (t : thread) :
  nth_error (threads s) i = Some t ->
  nth_error (threads (fst (callback m s))) i = Some t.
Proof.
  intros H. unfold callback. destruct (m (ui s)) as [[r g] evs]. cbn [fst threads].
  rewrite nth_error_app1; [exact H|]. apply nth_error_Some. congruence.
Qed.

Lemma notify_not_full_thread (ts : list thread) (waiters : list nat) (i : nat)
  (raw : raw_image) :
  nth_error ts i = Some (Acquirer (AcquireWaiting raw)) ->
  nth_error (fst (notify_not_full ts waiters)) i
  = Some (Acquirer (AcquireWaiting raw)) \/
  nth_error (fst (notify_not_full ts waiters)) i
  = Some (Acquirer (AcquirePut raw)).
Proof.
  intros H. unfold notify_not_full. destruct waiters as [|k rest]; [now left|].
  cbn [fst]. destruct (nth_error ts k) as [t|] eqn:Hk; [|now left].
  destruct (Nat.eq_dec k i) as [->|Hne].
  - right. rewrite H in Hk. injection Hk as <-.
    now apply nth_error_set_nth_same with (Acquirer (AcquireWaiting raw)).
  - left. rewrite nth_error_set_nth_other by congruence. exact H.
Qed.

(** A thread asleep in [put] keeps its frame and is woken by nothing
    but a [get] that returns: after any action it is still asleep with
    the same frame, or it is back at the test with the same frame and
    the action was a step of a [process_frames] thread inside [get] on
    a queue that held a frame. *)
Lemma asleep_until_get (body : raw_image -> list event) (a : action)
  (s : system) (i : nat) (raw : raw_image) :
  nth_error (threads s) i = Some (Acquirer (AcquireWaiting raw)) ->
  nth_error (threads (fst (step body a s))) i
  = Some (Acquirer (AcquireWaiting raw)) \/
  (nth_error (threads (fst (step body a s))) i = Some (Acquirer (AcquirePut raw)) /\
   exists j src, a = Run j src /\
                 nth_error (threads s) j = Some (Processor ProcessGet) /\
                 queue (frame_queue (ui s)) <> []).
Proof.
  intros H. destruct a as [b w|value w| |w|j src]; cbn [step];
    try (left; now apply callback_keeps_threads).
  destruct (nth_error (threads s) j) as [[pc|pc]|] eqn:Hj; [| |now left].
  - destruct (acquire_step src (ui s) pc) as [[g pc'] evs] eqn:Hstep.
    cbn [fst threads]. left.
    destruct (Nat.eq_dec j i) as [->|Hne].
    + rewrite H in Hj. injection Hj as <-. cbn in Hstep. injection Hstep as _ <- _.
      now apply nth_error_set_nth_same with (Acquirer (AcquireWaiting raw)).
    + rewrite nth_error_set_nth_other by congruence. exact H.
  - assert (Hne : j <> i) by (intros ->; congruence).
    destruct (process_step body (ui s) pc) as [[g pc'] evs] eqn:Hstep.
    assert (Hi : nth_error (set_nth j (Processor pc') (threads s)) i
                 = Some (Acquirer (AcquireWaiting raw)))
      by (rewrite nth_error_set_nth_other by congruence; exact H).
    destruct (takes_frame pc pc') eqn:Ht.
    + pose proof (notify_not_full_thread _ (not_full_waiters s) i raw Hi) as Hn.
      destruct (notify_not_full _ (not_full_waiters s)) as [ts' waiters'].
      cbn [fst threads] in *. destruct Hn as [Hn|Hn]; [now left|right].
      split; [exact Hn|]. exists j, src.
      destruct pc, pc'; try discriminate Ht.
      split; [reflexivity|]. split; [exact Hj|].
      cbn in Hstep. unfold get in Hstep.
      destruct (queue (frame_queue (ui s))); [discriminate Hstep|discriminate].
    + cbn [fst threads]. now left.
Qed.




(** Three answers of the camera in a row, an incomplete frame, a
    failure and a complete frame, followed to the end of [put]: only
    the last frame is in the queue and only the failure was printed. *)
Example acquire_three_answers :
  let bad := {| get_status := INCOMPLETE; frame_id := 1 |} in
  let good := {| get_status := SUCCESS; frame_id := 2 |} in
  let '(g, pc, evs) :=
    acquire_run [Returns bad; Raises (DeviceException 3); Returns good; Returns good]
      gui_streaming AcquireLoop in
  queue (frame_queue g) = [good] /\ pc = AcquireLoop /\
  filter is_report evs = [Print (ErrorAcquiringFrame (DeviceException 3))].
Proof. vm_compute. repeat split. Qed.

(** "Connect", "Start", two frames acquired, "Stop", "Stop" again: the
    queue is empty after the first stop and the second changes nothing. *)
Example stop_twice :
  let g := with_frame_queue
             {| maxsize := 2;
                queue := [{| get_status := SUCCESS; frame_id := 1 |};
                          {| get_status := SUCCESS; frame_id := 2 |}] |}
             gui_streaming in
  let g1 := after (press btn_stop world_ok) g in
  queue (frame_queue g1) = [] /\ is_streaming g1 = false /\
  press btn_stop world_ok g1 = (Returns tt, g1, []) /\
  stop_acquisition world_ok g1 = (Returns tt, g1, []).
Proof. vm_compute. repeat split. Qed.

End Acquisition.

(** * Further properties of the callbacks *)

Section CallbackOutcomes.

Import FrameQueue Gui Worker System Scenario Lifecycle.

Ltac list_facts :=
  cbn;
  repeat match goal with
         | |- _ /\ _ => split
         | |- ~ _ => intro
         | |- _ -> _ => intro
         | H : _ \/ _ |- _ => destruct H
         | H : False |- _ => destruct H
         | H : _ = _ |- _ => discriminate H
         end;
  try reflexivity; try discriminate; try tauto; eauto 8.

(** "Connect Camera", in full, by what the device answers.  It never
    touches the flag, the queue or the stored exposure.  When a camera
    is listed and every call made to it succeeds, the handle that
    [open_device_by_sn] returned is kept, "Start Acquisition" and "Close
    Camera" are enabled, "Connect Camera" is disabled, no error and no
    "No cameras found." is shown, the stored exposure is what is written
    to the camera when the exposure is writable, and the resolution
    written when it is writable is 4096 x 3000.  When the device manager
    answers and lists no camera, the callback only records the device
    manager and shows the warning "No cameras found.".  In every other
    world (a call raises) the buttons are as before and the last dialog
    is the error "Failed to connect". *)
Theorem connect_camera_outcome (w : world) (g : gui) :
  (is_streaming (after (connect_camera w) g) = is_streaming g /\
   frame_queue (after (connect_camera w) g) = frame_queue g /\
   current_exposure (after (connect_camera w) g) = current_exposure g) /\
  (forall c, Answers.connect_answer w = Some c ->
     after (connect_camera w) g
     = with_widgets
         (config btn_close normal
            (config btn_connect disabled (config btn_start normal (widgets g))))
         (with_cam (Some c) (with_device_manager (Some tt) g)) /\
     (forall m, ~ In (Showerror m) (effects (connect_camera w) g)) /\
     ~ In (Showwarning NoCamerasFound) (effects (connect_camera w) g) /\
     (w_exposure_writable w = true ->
      In (Device (ExposureTimeSet (current_exposure g)))
         (effects (connect_camera w) g)) /\
     (w_resolution_writable w = true ->
      In (Device (WidthSet 4096)) (effects (connect_camera w) g) /\
      In (Device (HeightSet 3000)) (effects (connect_camera w) g))) /\
  (Answers.no_camera_listed w = true ->
   after (connect_camera w) g = with_device_manager (Some tt) g /\
   effects (connect_camera w) g
   = [Device DeviceManager; Device UpdateDeviceList;
      Showwarning NoCamerasFound]) /\
  (Answers.connect_answer w = None -> Answers.no_camera_listed w = false ->
   widgets (after (connect_camera w) g) = widgets g /\
   exists e, last (effects (connect_camera w) g) Destroy
             = Showerror (FailedToConnect e)).
Proof.
  unfold Answers.connect_answer, Answers.no_camera_listed, Answers.succeeds,
    implb, andb.
  run_callback.
  split; [split_matches; cbn [fst snd]; repeat split; reflexivity|].
  split; [|split].
  - intros c. split_matches; cbn [fst snd andb implb]; intros [= <-];
      (split; [destruct g; reflexivity|]); list_facts.
  - split_matches; cbn [fst snd]; intros [=]; split; reflexivity.
  - split_matches; cbn [fst snd andb implb]; intros Ha Hn;
      try discriminate Ha; try discriminate Hn;
      (split; [reflexivity|]); eexists; reflexivity.
Qed.

(** Once [open_device_by_sn] has answered, the handle stays in
    [self.cam], also when a later call fails and the buttons are left
    as before ("Close Camera" is then not enabled by this callback). *)
Theorem connect_camera_keeps_handle (w : world) (g : gui) (sn : nat)
  (rest : list nat) (c : camera) :
  w_device_manager w = Returns tt ->
  w_update_device_list w = Returns (sn :: rest) ->
  w_open_device_by_sn w sn = Returns c ->
  cam (after (connect_camera w) g) = Some c /\
  ((exists m, In (Showerror m) (effects (connect_camera w) g)) ->
   widgets (after (connect_camera w) g) = widgets g).
Proof.
  intros Hdm Hl Ho. run_callback. rewrite Hdm. cbn. rewrite Hl. cbn. rewrite Ho.
  split_matches; cbn [fst snd]; (split; [reflexivity|]);
    intros [m Hm]; cbn in Hm; try reflexivity;
    repeat (destruct Hm as [Hm|Hm]; [discriminate Hm|]); destruct Hm.
Qed.

Lemma connect_camera_keeps_handle_witness :
  cam (after (connect_camera Worlds.world_exposure_fails) init) = Some 1%nat /\
  widgets (after (connect_camera Worlds.world_exposure_fails) init) = widgets init.
Proof.
  destruct (connect_camera_keeps_handle Worlds.world_exposure_fails init 7 [] 1%nat
              eq_refl eq_refl eq_refl) as [Hc Hw].
  split; [exact Hc|]. apply Hw.
  exists (FailedToConnect (DeviceException 5)). cbn. tauto.
Defined.

Lemma save_image_reaching (w : world) (g : gui) (path : nat) :
  Answers.reaches_save w g path ->
  after (save_image w) g = g /\
  effects (save_image w) g
  = [Device GetImage; SaveFile path;
     match w_save w with
     | Returns _ => Showinfo (ImageSavedTo path)
     | Raises e => Showerror (FailedToSaveImage e)
     end].
Proof.
  intros (Hs & Hc & (img & Hi & Hst) & Hcv & Hn & Hp).
  run_callback. rewrite Hs. cbn [negb].
  destruct (cam g) as [c|]; [|contradiction].
  rewrite Hi, Hst, Hcv, Hn, Hp. cbn [negb fst snd app].
  destruct (w_save w) as [[]|e]; split; reflexivity.
Qed.

Lemma save_image_not_reaching (w : world) (g : gui) :
  (forall path, ~ Answers.reaches_save w g path) ->
  after (save_image w) g = g /\
  forall path, ~ In (SaveFile path) (effects (save_image w) g) /\
               ~ In (Showinfo (ImageSavedTo path)) (effects (save_image w) g).
Proof.
  intros Hno. unfold Answers.reaches_save in Hno. run_callback.
  destruct (is_streaming g) eqn:Hs; cbn [negb fst snd].
  2:{ split; [reflexivity|]. intros path. split; intros [H|[]]; discriminate H. }
  destruct (cam g) as [c|] eqn:Hc.
  2:{ cbn. split; [reflexivity|]. intros path. split; intros [H|[]]; discriminate H. }
  destruct (w_get_image w) as [img|e] eqn:Hi; cbn [fst snd].
  2:{ cbn. split; [reflexivity|]. intros path.
      split; intros [H|[H|[]]]; discriminate H. }
  destruct (get_status img) eqn:Hst; cbn [fst snd].
  2:{ cbn. split; [reflexivity|]. intros path.
      split; intros [H|[H|[]]]; discriminate H. }
  destruct (w_convert w) eqn:Hcv; cbn [negb fst snd].
  2:{ cbn. split; [reflexivity|]. intros path.
      split; intros [H|[H|[]]]; discriminate H. }
  destruct (w_numpy_array w) eqn:Hn; cbn [negb fst snd].
  2:{ cbn. split; [reflexivity|]. intros path.
      split; intros [H|[H|[]]]; discriminate H. }
  destruct (w_save_path w) as [p|] eqn:Hp; cbn [fst snd].
  2:{ cbn. split; [reflexivity|]. intros path. split; intros [H|[]]; discriminate H. }
  exfalso. apply (Hno p). repeat split; try reflexivity; [discriminate | eauto].
Qed.

(** "Save Image" changes no attribute, whatever happens.  It calls
    [pil_image.save] exactly when the stream is on, a camera is held,
    the frame read is complete, both conversions give an image and the
    user chose a path, and with that path.  It reports "Image saved to"
    exactly when, in addition, that call returns; when the call raises,
    the error "Failed to save image" is what it shows instead.  With
    the stream off it only shows the warning "Acquisition is not
    running." and calls nothing. *)
Theorem save_image_outcome (w : world) (g : gui) :
  after (save_image w) g = g /\
  (forall path,
     In (SaveFile path) (effects (save_image w) g) <->
     Answers.reaches_save w g path) /\
  (forall path,
     In (Showinfo (ImageSavedTo path)) (effects (save_image w) g) <->
     Answers.reaches_save w g path /\ w_save w = Returns tt) /\
  (forall path e,
     Answers.reaches_save w g path -> w_save w = Raises e ->
     effects (save_image w) g
     = [Device GetImage; SaveFile path; Showerror (FailedToSaveImage e)]) /\
  (is_streaming g = false ->
   effects (save_image w) g = [Showwarning AcquisitionNotRunning]).
Proof.
  assert (Hpath : forall p q, Answers.reaches_save w g p ->
                              Answers.reaches_save w g q -> p = q).
  { intros p q (_ & _ & _ & _ & _ & Hp) (_ & _ & _ & _ & _ & Hq). congruence. }
  assert (Hdec : (exists p, Answers.reaches_save w g p) \/
                 (forall p, ~ Answers.reaches_save w g p)).
  { unfold Answers.reaches_save.
    destruct (is_streaming g); [|right; intros p (H & _); discriminate H].
    destruct (cam g) as [c|]; [|right; intros p (_ & H & _); now apply H].
    destruct (w_get_image w) as [img|e];
      [|right; intros p (_ & _ & (i & H & _) & _); discriminate H].
    destruct (get_status img) eqn:Hst;
      [|right; intros p (_ & _ & (i & H & H') & _); congruence].
    destruct (w_convert w); [|right; intros p (_ & _ & _ & H & _); discriminate H].
    destruct (w_numpy_array w);
      [|right; intros p (_ & _ & _ & _ & H & _); discriminate H].
    destruct (w_save_path w) as [p|];
      [|right; intros p (_ & _ & _ & _ & _ & H); discriminate H].
    left. exists p. repeat split; try reflexivity; [discriminate | eauto]. }
  destruct Hdec as [[p Hp]|Hno].
  - destruct (save_image_reaching w g p Hp) as [Hg He]. rewrite He.
    split; [exact Hg|]. split; [|split; [|split]].
    + intros path. split.
      * intros [H|[H|[H|[]]]]; try discriminate H;
          [now injection H as <- | destruct (w_save w); discriminate H].
      * intros Hq. rewrite (Hpath path p Hq Hp). cbn. tauto.
    + intros path. split.
      * intros [H|[H|[H|[]]]]; try discriminate H.
        destruct (w_save w) as [[]|e]; [|discriminate H].
        injection H as <-. split; [exact Hp|reflexivity].
      * intros [Hq Hsv]. rewrite (Hpath path p Hq Hp), Hsv. cbn. tauto.
    + intros path e Hq Hsv. rewrite (Hpath path p Hq Hp), Hsv. reflexivity.
    + intros Hs. destruct Hp as (Hs' & _). congruence.
  - destruct (save_image_not_reaching w g Hno) as [Hg Hnone].
    split; [exact Hg|]. split; [|split; [|split]].
    + intros path. split; [intros H; now apply (proj1 (Hnone path)) in H|].
      intros Hq. now apply Hno in Hq.
    + intros path. split; [intros H; now apply (proj2 (Hnone path)) in H|].
      intros [Hq _]. now apply Hno in Hq.
    + intros path e Hq. now apply Hno in Hq.
    + intros Hs. run_callback. rewrite Hs. reflexivity.
Qed.

Example save_image_writes :
  effects (save_image Worlds.world_saving) gui_streaming
  = [Device GetImage; SaveFile 4; Showinfo (ImageSavedTo 4)] /\
  after (save_image Worlds.world_saving) gui_streaming = gui_streaming.
Proof. split; reflexivity. Qed.

(** "Close Camera" with a camera held, by what the device answers.
    The stream is switched off first, and only when the flag is set;
    then the device is closed.  If these calls succeed, the handle and
    the device manager are dropped, the flag is off and the buttons are
    as at start-up; the queue is not cleared and the stored exposure is
    kept.  If [stream_off] raises, [close_device] is not called; if
    either raises, no attribute changes (so the flag stays set even
    when the stream was switched off before [close_device] failed) and
    the error "Failed to close camera" is shown with the exception. *)
Theorem close_camera_outcome (w : world) (g : gui) (c : camera) :
  cam g = Some c ->
  ((is_streaming g = false \/ w_stream_off w = Returns tt) ->
   w_close_device w = Returns tt ->
   after (close_camera w) g
   = with_widgets (widgets init)
       (with_is_streaming false (with_cam None (with_device_manager None g))) /\
   effects (close_camera w) g
   = (if is_streaming g then [Device StreamOff] else [])
     ++ [Device CloseDevice; Showinfo CameraClosed]) /\
  (forall e, is_streaming g = true -> w_stream_off w = Raises e ->
   after (close_camera w) g = g /\
   effects (close_camera w) g
   = [Device StreamOff; Showerror (FailedToCloseCamera e)]) /\
  (forall e, (is_streaming g = false \/ w_stream_off w = Returns tt) ->
   w_close_device w = Raises e ->
   after (close_camera w) g = g /\
   effects (close_camera w) g
   = (if is_streaming g then [Device StreamOff] else [])
     ++ [Device CloseDevice; Showerror (FailedToCloseCamera e)]).
Proof.
  intros Hc. run_callback. rewrite Hc. split; [|split].
  - intros Hoff Hcl. rewrite Hcl.
    destruct (is_streaming g) eqn:Hs.
    + destruct Hoff as [Hoff|Hoff]; [discriminate|]. rewrite Hoff.
      cbn [fst snd app]. split; [|reflexivity].
      destruct g; cbn in *; subst; reflexivity.
    + cbn [fst snd app]. split; [|reflexivity].
      destruct g; cbn in *; subst; reflexivity.
  - intros e Hs Hoff. rewrite Hs, Hoff. split; reflexivity.
  - intros e Hoff Hcl. rewrite Hcl.
    destruct (is_streaming g) eqn:Hs.
    + destruct Hoff as [Hoff|Hoff]; [discriminate|]. rewrite Hoff.
      split; reflexivity.
    + split; reflexivity.
Qed.

Lemma close_camera_outcome_witness :
  cam gui_streaming = Some 1%nat /\
  effects (close_camera world_ok) gui_streaming
  = [Device StreamOff; Device CloseDevice; Showinfo CameraClosed].
Proof.
  split; [reflexivity|].
  exact (proj2 (proj1 (close_camera_outcome world_ok gui_streaming 1%nat eq_refl)
                  (or_intror eq_refl) eq_refl)).
Defined.

(** No callback lets an exception out: whatever the device answers,
    each button's method, the slider's, the timer's and the window's
    return. *)
Theorem callbacks_return (w : world) (g : gui) :
  (forall b, fst (fst (command b w g)) = Returns tt) /\
  (forall b, fst (fst (press b w g)) = Returns tt) /\
  (forall value, fst (fst (update_exposure w value g)) = Returns tt) /\
  fst (fst (update_frame g)) = Returns tt /\
  fst (fst (closeEvent w g)) = Returns tt.
Proof.
  repeat split; try (intros b; destruct b); try intros value;
    run_callback; split_matches; cbn; try reflexivity;
    repeat match goal with u : unit |- _ => destruct u end; reflexivity.
Qed.

(** Closing the window closes the camera as the button would, and then
    destroys the window, also when closing the camera failed. *)
Theorem closeEvent_destroys (w : world) (g : gui) :
  closeEvent w g
  = (Returns tt, after (close_camera w) g,
     effects (close_camera w) g ++ [Destroy]).
Proof.
  run_callback. split_matches; cbn; reflexivity.
Qed.

End CallbackOutcomes.

(** * The lifecycle and the threads *)

Section LifecycleProperties.

Import FrameQueue Gui Worker System Scenario Lifecycle.

Lemma set_nth_length {A} (x : A) (l : list A) :
  forall i, length (set_nth i x l) = length l.
Proof.
  induction l as [|y rest IH]; intros [|i]; cbn; try reflexivity.
  now rewrite IH.
Qed.

Lemma callback_threads (m : M unit) (s : system) :
  threads (fst (callback m s))
  = threads s ++ flat_map spawned (effects m (ui s)).
Proof.
  unfold callback, effects. destruct (m (ui s)) as [[r g] evs]. reflexivity.
Qed.

Lemma press_lifecycle (b : button) (w : world) (g : gui) (st : StreamState) :
  lifecycle g = Some st ->
  leads_to (Press b w) st (after (press b w) g) = true.
Proof.
  intros H. each_state g; cbn in H; try discriminate H;
    injection H as <-; destruct b; run_callback; cbn;
    split_matches; reflexivity.
Qed.

Lemma closeEvent_lifecycle (w : world) (g : gui) (st : StreamState) :
  lifecycle g = Some st ->
  leads_to (WindowClose w) st (after (closeEvent w) g) = true.
Proof.
  intros H. each_state g; cbn in H; try discriminate H;
    injection H as <-; run_callback; cbn; split_matches; reflexivity.
Qed.

Lemma update_exposure_lifecycle (w : world) (value : Z) (g : gui) :
  lifecycle (after (update_exposure w value) g) = lifecycle g.
Proof. run_callback. split_matches; reflexivity. Qed.

Lemma update_frame_lifecycle (g : gui) :
  lifecycle (after update_frame g) = lifecycle g.
Proof. run_callback. split_matches; reflexivity. Qed.

Lemma acquire_step_lifecycle (src : outcome raw_image) (g : gui) (pc : acquirer) :
  lifecycle (fst (fst (acquire_step src g pc))) = lifecycle g.
Proof. unfold acquire_step. split_matches; reflexivity. Qed.

Lemma process_step_lifecycle (body : raw_image -> list event) (g : gui)
  (pc : processor) :
  lifecycle (fst (fst (process_step body g pc))) = lifecycle g.
Proof. unfold process_step. split_matches; reflexivity. Qed.

Lemma leads_to_same (a : action) (st : StreamState) (g : gui) :
  lifecycle g = Some st -> leads_to a st g = true.
Proof.
  intros H. unfold leads_to. rewrite H.
  destruct a as [[] w|value w| |w|i src], st; reflexivity.
Qed.

Lemma step_lifecycle (body : raw_image -> list event) (a : action) (s : system)
  (st : StreamState) :
  lifecycle (ui s) = Some st ->
  leads_to a st (ui (fst (step body a s))) = true.
Proof.
  intros H. destruct a as [b w|value w| |w|i src]; cbn [step];
    try rewrite callback_ui.
  - now apply press_lifecycle.
  - apply leads_to_same. now rewrite update_exposure_lifecycle.
  - apply leads_to_same. now rewrite update_frame_lifecycle.
  - now apply closeEvent_lifecycle.
  - apply leads_to_same.
    change (lifecycle (ui (fst (step body (Run i src) s))) = Some st).
    rewrite run_ui.
    destruct (nth_error (threads s) i) as [[pc|pc]|]; [| |exact H].
    + now rewrite acquire_step_lifecycle.
    + now rewrite process_step_lifecycle.
Qed.

(** The program is a machine of three states.  In every state it
    reaches, the buttons and the flag are in one of three arrangements:
    idle (only "Connect Camera" enabled, flag off), ready ("Start
    Acquisition" and "Close Camera" enabled, camera held, flag off) or
    streaming ("Stop Acquisition", "Save Image" and "Close Camera"
    enabled, camera held, flag on).  And every action keeps the state or
    moves it along one edge: "Connect Camera" from idle to ready, "Start
    Acquisition" from ready to streaming, "Stop Acquisition" back from
    streaming to ready, "Close Camera" and closing the window from
    ready or streaming to idle; the slider, the timer and the threads
    never move it. *)
Theorem lifecycle_of_reachable (body : raw_image -> list event) (s : system) :
  reachable body s ->
  exists st, lifecycle (ui s) = Some st /\
             forall a, leads_to a st (ui (fst (step body a s))) = true.
Proof.
  intros H.
  assert (Hst : exists st, lifecycle (ui s) = Some st).
  { induction H as [|s a _ [st IH]].
    - exists Idle. reflexivity.
    - pose proof (step_lifecycle body a s st IH) as Hl. unfold leads_to in Hl.
      destruct (lifecycle (ui (fst (step body a s)))) as [st'|]; [eauto|discriminate]. }
  destruct Hst as [st Hst]. exists st. split; [exact Hst|].
  intros a. now apply step_lifecycle.
Qed.

Lemma lifecycle_of_reachable_witness :
  exists st, lifecycle (ui boot) = Some st /\
             forall a, leads_to a st (ui (fst (step (fun _ => []) a boot))) = true.
Proof.
  exact (lifecycle_of_reachable (fun _ => []) boot (reachable_boot _)).
Defined.

(** *** Threads *)

Lemma press_spawns (b : button) (w : world) (g : gui) :
  flat_map spawned (effects (press b w) g)
  = match b, state_of (widgets g) b, cam g, w_stream_on w with
    | btn_start, normal, Some _, Returns _ =>
        [Acquirer AcquireLoop; Processor ProcessLoop]
    | _, _, _, _ => []
    end.
Proof.
  destruct b; run_callback; cbn [state_of]; split_matches; reflexivity.
Qed.

Lemma other_callbacks_spawn_nothing (w : world) (value : Z) (g : gui) :
  flat_map spawned (effects (update_exposure w value) g) = [] /\
  flat_map spawned (effects update_frame g) = [] /\
  flat_map spawned (effects (closeEvent w) g) = [].
Proof.
  repeat split; run_callback; split_matches; reflexivity.
Qed.

Lemma notify_not_full_threads (ts : list thread) (waiters : list nat) :
  length (fst (notify_not_full ts waiters)) = length ts /\
  forall k t, nth_error ts k = Some t ->
    nth_error (fst (notify_not_full ts waiters)) k = Some t \/
    nth_error (fst (notify_not_full ts waiters)) k = Some (woken t).
Proof.
  unfold notify_not_full. destruct waiters as [|k0 rest]; cbn [fst];
    [split; [reflexivity|]; intros k t H; now left|].
  destruct (nth_error ts k0) as [t0|] eqn:H0;
    [|split; [reflexivity|]; intros k t H; now left].
  split; [apply set_nth_length|]. intros k t H.
  destruct (Nat.eq_dec k k0) as [->|Hne].
  - right. rewrite H in H0. injection H0 as <-.
    now apply nth_error_set_nth_same with t.
  - left. now rewrite nth_error_set_nth_other.
Qed.

(** Threads are started by a successful "Start Acquisition" and by
    nothing else, two at a time, and no callback touches a thread that
    runs.  After a press on a button, a move of the slider, a tick of
    the timer or the closing of the window, the list of threads is the
    list as it was, thread for thread, followed by a new
    [acquire_frames] and a new [process_frames] exactly when the action
    is a press on the enabled "Start Acquisition" with a camera held
    and [stream_on] succeeding; so "Stop Acquisition" and "Close
    Camera" join nothing and end nothing, and a stop followed by a
    start leaves four threads.  A step of thread [i] keeps the number
    of threads and leaves every other thread as it was, or woken from
    its sleep in [put]. *)
Theorem threads_only_grow (body : raw_image -> list event) (a : action)
  (s : system) :
  match a with
  | Run i src =>
      length (threads (fst (step body a s))) = length (threads s) /\
      forall k t, k <> i -> nth_error (threads s) k = Some t ->
        nth_error (threads (fst (step body a s))) k = Some t \/
        nth_error (threads (fst (step body a s))) k = Some (woken t)
  | _ =>
      threads (fst (step body a s))
      = threads s ++
        match a with
        | Press btn_start w =>
            match start_state (widgets (ui s)), cam (ui s), w_stream_on w with
            | normal, Some _, Returns _ =>
                [Acquirer AcquireLoop; Processor ProcessLoop]
            | _, _, _ => []
            end
        | _ => []
        end
  end.
Proof.
  destruct a as [b w|value w| |w|i src]; cbn [step].
  - rewrite callback_threads, press_spawns.
    destruct b; cbn [state_of]; split_matches; reflexivity.
  - rewrite callback_threads.
    now rewrite (proj1 (other_callbacks_spawn_nothing w value (ui s))).
  - rewrite callback_threads.
    now rewrite (proj1 (proj2 (other_callbacks_spawn_nothing world_ok 0 (ui s)))).
  - rewrite callback_threads.
    now rewrite (proj2 (proj2 (other_callbacks_spawn_nothing w 0 (ui s)))).
  - destruct (nth_error (threads s) i) as [[pc|pc]|].
    + destruct (acquire_step src (ui s) pc) as [[g pc'] evs]. cbn [fst threads].
      split; [apply set_nth_length|]. intros k t Hk Ht. left.
      now rewrite nth_error_set_nth_other.
    + destruct (process_step body (ui s) pc) as [[g pc'] evs].
      destruct (takes_frame pc pc').
      * destruct (notify_not_full_threads (set_nth i (Processor pc') (threads s))
                    (not_full_waiters s)) as [Hlen Hth].
        destruct (notify_not_full _ (not_full_waiters s)) as [ts' waiters'].
        cbn [fst threads] in *. split; [now rewrite Hlen, set_nth_length|].
        intros k t Hk Ht. apply Hth. now rewrite nth_error_set_nth_other.
      * cbn [fst threads]. split; [apply set_nth_length|].
        intros k t Hk Ht. left. now rewrite nth_error_set_nth_other.
    + split; [reflexivity|]. intros k t Hk Ht. now left.
Qed.

(** After a successful "Stop Acquisition" the "Save Image" button is
    as it was, so still enabled if it was; pressing it then only shows
    the warning "Acquisition is not running." and changes nothing. *)
Theorem save_after_stop (w w' : world) (g : gui) (c : camera) :
  cam g = Some c -> is_streaming g = true ->
  save_state (widgets g) = normal ->
  w_stream_off w = Returns tt ->
  save_state (widgets (after (stop_acquisition w) g)) = normal /\
  press btn_save w' (after (stop_acquisition w) g)
  = (Returns tt, after (stop_acquisition w) g,
     [Showwarning AcquisitionNotRunning]).
Proof.
  intros Hc Hs Hb Hw. unfold after.
  rewrite (stop_acquisition_done w g c Hc Hs Hw). cbn [fst snd].
  split.
  - cbn. exact Hb.
  - run_callback. cbn. rewrite Hb. reflexivity.
Qed.

Lemma save_after_stop_witness :
  press btn_save world_ok (after (stop_acquisition world_ok) gui_streaming)
  = (Returns tt, after (stop_acquisition world_ok) gui_streaming,
     [Showwarning AcquisitionNotRunning]).
Proof.
  exact (proj2 (save_after_stop world_ok world_ok gui_streaming 1%nat
                  eq_refl eq_refl eq_refl eq_refl)).
Defined.

End LifecycleProperties.

(** * The queue and the threads around a stop *)

Section QueueOrder.

Import FrameQueue QueueTrace.

Context {A : Type}.

Lemma apply_order (st : Queue A * log A) (o : op A) :
  accepted (snd st) = map fst (gone (snd st)) ++ queue (fst st) ->
  accepted (snd (apply st o)) = map fst (gone (snd (apply st o)))
                                ++ queue (fst (apply st o)).
Proof.
  destruct st as [q l]. cbn [fst snd]. intros H. destruct o as [item| |];
    cbn [apply].
  - unfold put. destruct (full q); cbn [fst snd accepted gone queue]; [exact H|].
    rewrite H. now rewrite app_assoc.
  - unfold get. destruct (queue q) as [|item rest] eqn:Hq;
      cbn [fst snd accepted gone queue]; [rewrite Hq; exact H|].
    rewrite H, map_app. cbn [map fst]. now rewrite <- app_assoc.
  - cbn [fst snd accepted gone queue clear].
    rewrite H, map_app, map_map. cbn [fst]. rewrite map_id. now rewrite app_nil_r.
Qed.

Lemma run_order (ops : list (op A)) : forall st,
  accepted (snd st) = map fst (gone (snd st)) ++ queue (fst st) ->
  accepted (snd (run ops st)) = map fst (gone (snd (run ops st)))
                                ++ queue (fst (run ops st)).
Proof.
  induction ops as [|o rest IH]; intros st H; cbn [run fold_left].
  - exact H.
  - apply IH. now apply apply_order.
Qed.

Lemma apply_no_clear (st : Queue A * log A) (o : op A) :
  is_clear o = false ->
  forallb snd (gone (snd st)) = true ->
  forallb snd (gone (snd (apply st o))) = true.
Proof.
  destruct st as [q l]. cbn [fst snd]. intros Ho H. destruct o as [item| |];
    [| |discriminate Ho]; cbn [apply].
  - destruct (put q item); exact H.
  - destruct (get q) as [[item q']|]; cbn [snd gone]; [|exact H].
    rewrite forallb_app, H. reflexivity.
Qed.

Lemma run_no_clear (ops : list (op A)) : forall st,
  forallb (fun o => negb (is_clear o)) ops = true ->
  forallb snd (gone (snd st)) = true ->
  forallb snd (gone (snd (run ops st))) = true.
Proof.
  induction ops as [|o rest IH]; intros st Hops H; cbn [run fold_left].
  - exact H.
  - cbn [forallb] in Hops. apply andb_prop in Hops as [Ho Hrest].
    apply IH; [exact Hrest|]. apply apply_no_clear; [|exact H].
    now apply negb_true_iff.
Qed.

Lemma filter_all {B} (f : B -> bool) (l : list B) :
  forallb f l = true -> filter f l = l.
Proof.
  induction l as [|x rest IH]; cbn; [reflexivity|].
  intros H. apply andb_prop in H as [Hx Hrest]. rewrite Hx. f_equal. auto.
Qed.

(** The queue is first in, first out, and loses nothing by itself.
    After any sequence of [put], [get] and [clear] on a new queue of any
    capacity, whichever of them had to wait, the frames that [put] took
    are, in the same order, the frames that went out (returned by [get]
    or discarded by [clear]) followed by the frames still queued.  If
    [clear] was never called, the frames taken are exactly the frames
    that [get] returned followed by the frames still queued: none is
    reordered, repeated or lost. *)
Theorem queue_is_fifo (n : Z) (ops : list (op A)) :
  accepted (snd (run ops (new n, no_log)))
  = map fst (gone (snd (run ops (new n, no_log))))
    ++ queue (fst (run ops (new n, no_log))) /\
  (forallb (fun o => negb (is_clear o)) ops = true ->
   accepted (snd (run ops (new n, no_log)))
   = delivered (snd (run ops (new n, no_log)))
     ++ queue (fst (run ops (new n, no_log)))).
Proof.
  assert (H : accepted (snd (run ops (new n, no_log)))
              = map fst (gone (snd (run ops (new n, no_log))))
                ++ queue (fst (run ops (new n, no_log))))
    by (apply run_order; reflexivity).
  split; [exact H|]. intros Hops. rewrite H. unfold delivered.
  rewrite filter_all; [reflexivity|]. now apply run_no_clear.
Qed.

End QueueOrder.

Section AroundStop.

Import FrameQueue Gui Worker System Scenario Runs.

Lemma acquire_run_done (srcs : list (outcome raw_image)) (g : gui) :
  acquire_run srcs g AcquireDone = (g, AcquireDone, []).
Proof.
  induction srcs as [|src rest IH]; cbn [acquire_run acquire_step]; [reflexivity|].
  now rewrite IH.
Qed.

(** Once the flag is off, [acquire_frames] at the head of its loop
    ends at its next step and stays ended: it does not call the camera
    again, touches nothing and prints nothing, whatever the camera
    would have answered. *)
Theorem acquire_frames_exits (src : outcome raw_image)
  (srcs : list (outcome raw_image)) (g : gui) :
  is_streaming g = false ->
  acquire_run (src :: srcs) g AcquireLoop = (g, AcquireDone, []).
Proof.
  intros Hs. cbn [acquire_run acquire_step]. rewrite Hs.
  now rewrite acquire_run_done.
Qed.

Lemma acquire_frames_exits_witness :
  is_streaming init = false /\
  acquire_run [Returns {| get_status := SUCCESS; frame_id := 1 |}] init AcquireLoop
  = (init, AcquireDone, []).
Proof.
  split; [reflexivity|].
  exact (acquire_frames_exits _ [] init eq_refl).
Defined.

Lemma run_acquirer (body : raw_image -> list event) (i : nat)
  (src : outcome raw_image) (s : system) (pc : acquirer) :
  nth_error (threads s) i = Some (Acquirer pc) ->
  ui (fst (step body (Run i src) s)) = fst (fst (acquire_step src (ui s) pc)) /\
  nth_error (threads (fst (step body (Run i src) s))) i
  = Some (Acquirer (snd (fst (acquire_step src (ui s) pc)))).
Proof.
  intros H. cbn [step]. rewrite H.
  destruct (acquire_step src (ui s) pc) as [[g pc'] evs]. cbn [fst snd ui threads].
  split; [reflexivity|]. now apply nth_error_set_nth_same with (Acquirer pc).
Qed.

Lemma press_stop_done (body : raw_image -> list event) (w : world) (s : system)
  (c : camera) :
  cam (ui s) = Some c -> is_streaming (ui s) = true ->
  stop_state (widgets (ui s)) = normal -> w_stream_off w = Returns tt ->
  ui (fst (step body (Press btn_stop w) s))
  = with_frame_queue (clear (frame_queue (ui s)))
      (with_widgets (config btn_stop disabled
                       (config btn_start normal (widgets (ui s))))
         (with_is_streaming false (ui s))).
Proof.
  intros Hc Hs Hb Hw. cbn [step]. rewrite callback_ui.
  unfold after, press, bind, read. cbn [state_of]. rewrite Hb. cbn [command].
  rewrite (stop_acquisition_done w (ui s) c Hc Hs Hw). reflexivity.
Qed.

(** What "Stop Acquisition" does to the threads that are inside [put].
    After a successful stop the queue is empty.  A thread that was
    asleep in [put] with a frame is not released: it is still asleep
    with its frame, and whatever single action comes next, a step of
    its own included, it is still asleep, although the queue has room;
    clearing the list notifies no one, and no [get] can return from an
    empty queue.  A thread that had a frame and was at the test of
    [put] (entering the call) finds room, puts its frame in the emptied
    queue and ends at its next test of the flag: the queue then holds
    that one old frame although the stream is off. *)
Theorem stop_and_threads_in_put (body : raw_image -> list event) (w : world)
  (s : system) (c : camera) :
  cam (ui s) = Some c -> is_streaming (ui s) = true ->
  stop_state (widgets (ui s)) = normal -> w_stream_off w = Returns tt ->
  queue (frame_queue (ui (fst (step body (Press btn_stop w) s)))) = [] /\
  (forall i raw,
     nth_error (threads s) i = Some (Acquirer (AcquireWaiting raw)) ->
     forall a,
       nth_error (threads (fst (step body (Press btn_stop w) s))) i
       = Some (Acquirer (AcquireWaiting raw)) /\
       nth_error
         (threads (fst (step body a (fst (step body (Press btn_stop w) s))))) i
       = Some (Acquirer (AcquireWaiting raw))) /\
  (forall i raw src src',
     nth_error (threads s) i = Some (Acquirer (AcquirePut raw)) ->
     let s2 := fst (step body (Run i src)
                      (fst (step body (Press btn_stop w) s))) in
     let s3 := fst (step body (Run i src') s2) in
     queue (frame_queue (ui s2)) = [raw] /\
     nth_error (threads s3) i = Some (Acquirer AcquireDone) /\
     queue (frame_queue (ui s3)) = [raw]).
Proof.
  intros Hc Hs Hb Hw.
  pose proof (press_stop_done body w s c Hc Hs Hb Hw) as Hui.
  split; [now rewrite Hui|]. split.
  - intros i raw Hi a.
    assert (Hi1 : nth_error (threads (fst (step body (Press btn_stop w) s))) i
                  = Some (Acquirer (AcquireWaiting raw)))
      by (cbn [step]; now apply callback_keeps_threads).
    split; [exact Hi1|].
    destruct (asleep_until_get body a _ i raw Hi1) as [H|(_ & j & src & _ & _ & Hq)];
      [exact H|].
    exfalso. apply Hq. now rewrite Hui.
  - intros i raw src src' Hi. cbv zeta.
    assert (Hi1 : nth_error (threads (fst (step body (Press btn_stop w) s))) i
                  = Some (Acquirer (AcquirePut raw)))
      by (cbn [step]; now apply callback_keeps_threads).
    remember (fst (step body (Press btn_stop w) s)) as s1 eqn:Es1.
    destruct (run_acquirer body i src s1 _ Hi1) as [Hu2 Ht2].
    remember (fst (step body (Run i src) s1)) as s2 eqn:Es2.
    assert (Hput : acquire_step src (ui s1) (AcquirePut raw)
                   = (with_frame_queue
                        {| maxsize := maxsize (frame_queue (ui s));
                           queue := [raw] |} (ui s1),
                      AcquireLoop, [])).
    { rewrite Hui. cbn [acquire_step]. unfold put, full, qsize. cbn.
      destruct (0 <? maxsize (frame_queue (ui s)))%Z eqn:H0; cbn; [|reflexivity].
      destruct (maxsize (frame_queue (ui s)) <=? 0)%Z eqn:H1; [|reflexivity].
      apply Z.ltb_lt in H0. apply Z.leb_le in H1. lia. }
    rewrite Hput in Hu2, Ht2. cbn [fst snd] in Hu2, Ht2.
    destruct (run_acquirer body i src' s2 _ Ht2) as [Hu3 Ht3].
    assert (Hexit : acquire_step src' (ui s2) AcquireLoop = (ui s2, AcquireDone, [])).
    { cbn [acquire_step]. rewrite Hu2, Hui. reflexivity. }
    rewrite Hexit in Hu3, Ht3. cbn [fst snd] in Hu3, Ht3.
    split; [now rewrite Hu2|]. split; [exact Ht3|]. now rewrite Hu3, Hu2.
Qed.

Lemma stop_and_threads_in_put_witness :
  cam (ui Answers.stalled) = Some 1%nat /\
  queue (frame_queue (ui Answers.stalled)) = [Answers.frame 1; Answers.frame 2] /\
  nth_error (threads Answers.stalled) 0
  = Some (Acquirer (AcquireWaiting (Answers.frame 3))) /\
  queue (frame_queue
           (ui (fst (step (fun _ => []) (Press btn_stop world_ok) Answers.stalled))))
  = [] /\
  nth_error
    (threads (fst (step (fun _ => []) (Run 0 (Returns (Answers.frame 4)))
                     (fst (step (fun _ => []) (Press btn_stop world_ok)
                             Answers.stalled))))) 0
  = Some (Acquirer (AcquireWaiting (Answers.frame 3))).
Proof.
  split; [reflexivity|]. split; [reflexivity|]. split; [reflexivity|].
  destruct (stop_and_threads_in_put (fun _ => []) world_ok Answers.stalled 1%nat
              eq_refl eq_refl eq_refl eq_refl) as (Hq & Hasleep & _).
  split; [exact Hq|].
  exact (proj2 (Hasleep 0%nat (Answers.frame 3) eq_refl
                  (Run 0 (Returns (Answers.frame 4))))).
Defined.




End AroundStop.

(** * Further properties of the detector and of the overlay *)

Section SelectedContour.

Import CV.

Context {A : Type} (key : A -> Q).

Lemma max_from_le (l : list A) : forall best,
  (forall y, In y l -> key y <= key best) -> Py.max_from key best l = best.
Proof.
  induction l as [|x rest IH]; intros best H; cbn [Py.max_from]; [reflexivity|].
  assert (Hx : Qle_bool (key x) (key best) = true)
    by (apply Qle_bool_iff, H; now left).
  rewrite Hx. apply IH. intros y Hy. apply H. now right.
Qed.

Lemma max_from_lt (l1 l2 : list A) (c : A) : forall best,
  key best < key c ->
  (forall x, In x l1 -> key x < key c) ->
  Py.max_from key best (l1 ++ c :: l2) = Py.max_from key c l2.
Proof.
  induction l1 as [|x rest IH]; intros best Hb H; cbn [app Py.max_from].
  - destruct (Qle_bool (key c) (key best)) eqn:Hle; [|reflexivity].
    apply Qle_bool_iff in Hle. exfalso. exact (Qlt_not_le _ _ Hb Hle).
  - destruct (Qle_bool (key x) (key best)).
    + apply IH; [exact Hb|]. intros y Hy. apply H. now right.
    + apply IH; [apply H; now left|]. intros y Hy. apply H. now right.
Qed.

Lemma max_first_largest (l1 l2 : list A) (c : A) :
  (forall x, In x l1 -> key x < key c) ->
  (forall y, In y l2 -> key y <= key c) ->
  Py.max (l1 ++ c :: l2) key = Returns c.
Proof.
  intros H1 H2. destruct l1 as [|x rest]; cbn [app Py.max]; f_equal.
  - now apply max_from_le.
  - rewrite max_from_lt.
    + now apply max_from_le.
    + apply H1. now left.
    + intros y Hy. apply H1. now right.
Qed.

End SelectedContour.

Section DetectorCoverage.

Import CV Detector Runs.

Lemma a00_few_points (c : contour) : (length c <= 2)%nat -> a00 c = 0%Z.
Proof.
  destruct c as [|p [|q [|r rest]]]; cbn [length]; intros H; try lia.
  - reflexivity.
  - unfold a00, closed_sum. cbn. unfold dxy. lia.
  - unfold a00, closed_sum. cbn. unfold dxy. lia.
Qed.

Lemma contourArea_pos (c : contour) : a00 c <> 0%Z -> (0 < Q2R (contourArea c))%R.
Proof.
  intros H. unfold contourArea, Q2R. cbn [Qnum Qden].
  assert (Ha : (0 < IZR (Z.abs (a00 c)))%R) by (apply IZR_lt; lia).
  apply Rmult_lt_0_compat; [exact Ha|]. apply Rinv_0_lt_compat. lra.
Qed.

Variables Image Gray Binary : Type.
Variable cvtColor : Image -> Gray.
Variable threshold : Gray -> Binary.
Variable findContours : Binary -> list contour.

Local Abbreviation contours image := (findContours (threshold (cvtColor image))).
Local Abbreviation detect := (calculate_centroid cvtColor threshold findContours).

(** Small blobs are not objects: when every contour of the image has
    at most two points (single pixels and one-pixel-wide segments come
    out of [findContours] that way), the detector answers "not found",
    however many such contours there are. *)
Theorem few_points_not_found (image : Image) :
  (forall c, In c (contours image) -> (length c <= 2)%nat) ->
  detect image = Returns not_found.
Proof.
  intros H. destruct (contours_cases _ _ _ cvtColor threshold findContours image)
    as [He|[c Hc]].
  - now apply calculate_centroid_empty.
  - rewrite (calculate_centroid_largest _ _ _ _ _ _ image c Hc).
    apply measure_not_found, a00_few_points, H.
    now apply (max_spec contourArea (contours image) c).
Qed.

(** Among contours of the same largest area, the detector measures the
    first one in the order of [findContours]: a contour is the selected
    one as soon as every contour before it has a strictly smaller area
    and no contour after it has a larger one. *)
Theorem first_largest_selected (image : Image) (l1 l2 : list contour)
  (c : contour) :
  contours image = l1 ++ c :: l2 ->
  (forall x, In x l1 -> contourArea x < contourArea c) ->
  (forall y, In y l2 -> contourArea y <= contourArea c) ->
  detect image = measure c.
Proof.
  intros Hl H1 H2. apply calculate_centroid_largest.
  rewrite Hl. now apply max_first_largest.
Qed.

(** What a found object measures: whenever the detector returns a
    centroid, the diameter and the circularity that come with it are
    strictly positive, so a found object never shows the zeros of "not
    found". *)
Theorem found_measures_positive (image : Image) (p : Z * Z)
  (diameter circularity : R) :
  calculate_centroid cvtColor threshold findContours image
  = Returns (Some p, Py.Float diameter, Py.Float circularity) ->
  (0 < diameter)%R /\ (0 < circularity)%R.
Proof.
  intros Hd.
  destruct (contours_cases _ _ _ cvtColor threshold findContours image)
    as [He|[c Hc]].
  { rewrite (calculate_centroid_empty _ _ _ _ _ _ image He) in Hd. discriminate. }
  rewrite (calculate_centroid_largest _ _ _ _ _ _ image c Hc) in Hd.
  destruct (Z.eq_dec (a00 c) 0) as [Ha|Ha].
  - rewrite (measure_not_found c Ha) in Hd. discriminate.
  - rewrite (measure_found c Ha) in Hd. injection Hd as _ <- <-.
    pose proof (contourArea_pos c Ha) as Harea.
    pose proof PI_RGT_0 as Hpi.
    pose proof (perimeter_squared_nonzero c Ha) as Hp.
    assert (Hq : (0 < 4 * Q2R (contourArea c) / PI)%R).
    { apply Rdiv_lt_0_compat; lra. }
    split; [now apply sqrt_lt_R0|].
    apply Rmult_lt_0_compat; [lra|].
    apply Rdiv_lt_0_compat; [exact Harea|].
    assert (0 <= arcLength c true * arcLength c true)%R
      by (apply Rle_0_sqr).
    lra.
Qed.

End DetectorCoverage.

Lemma few_points_not_found_witness :
  Detector.calculate_centroid (fun i => i) (fun g => g) (fun b => b)
    [[(3, 3)%Z]; [(5, 5); (5, 9)]%Z]
  = Returns Detector.not_found.
Proof.
  apply (few_points_not_found (list CV.contour) (list CV.contour)
           (list CV.contour) (fun i => i) (fun g => g) (fun b => b)).
  intros c [<-|[<-|[]]]; cbn; lia.
Defined.

Lemma first_largest_selected_witness :
  let square := [(0, 0); (0, 10); (10, 10); (10, 0)]%Z in
  let twin := [(20, 20); (20, 30); (30, 30); (30, 20)]%Z in
  Detector.calculate_centroid (fun i => i) (fun g => g) (fun b => b)
    [[(3, 3)%Z]; square; twin]
  = Detector.measure square.
Proof.
  cbv zeta.
  apply (first_largest_selected (list CV.contour) (list CV.contour)
           (list CV.contour) (fun i => i) (fun g => g) (fun b => b)
           _ [[(3, 3)%Z]] [[(20, 20); (20, 30); (30, 30); (30, 20)]%Z]).
  - reflexivity.
  - intros x [<-|[]]. reflexivity.
  - intros y [<-|[]]. vm_compute. discriminate.
Defined.

Lemma found_measures_positive_witness :
  let square := [(0, 0); (0, 10); (10, 10); (10, 0)]%Z in
  (0 < sqrt (4 * Q2R (CV.contourArea square) / PI))%R /\
  (0 < 4 * PI * (Q2R (CV.contourArea square)
                 / (CV.arcLength square true * CV.arcLength square true)))%R.
Proof.
  cbv zeta.
  assert (Ha : CV.a00 [(0, 0); (0, 10); (10, 10); (10, 0)]%Z <> 0%Z)
    by (vm_compute; discriminate).
  exact (found_measures_positive (list CV.contour) (list CV.contour)
           (list CV.contour) (fun i => i) (fun g => g) (fun b => b)
           [[(0, 0); (0, 10); (10, 10); (10, 0)]%Z] _ _ _
           (measure_found _ Ha)).
Defined.

(** * Rectangles and translations *)

Section Rectangles.

Import CV Detector Runs.

Lemma int_of_quotient (n m : Z) :
  (0 < m)%Z -> Py.int ((n # 6) / (m # 2)) = Z.quot (2 * n) (6 * m).
Proof.
  intros Hm. destruct m as [|p|p]; try lia.
  unfold Py.int, Qdiv, Qinv, Qmult. cbn [Qnum Qden].
  f_equal; lia.
Qed.

Lemma dist_horizontal (xa xb y : Z) : dist (xa, y) (xb, y) = IZR (Z.abs (xb - xa)).
Proof.
  unfold dist, px, py. cbn [fst snd].
  replace ((xb - xa) * (xb - xa) + (y - y) * (y - y))%Z
    with (Z.abs (xb - xa) * Z.abs (xb - xa))%Z
    by (rewrite Z.abs_square; ring).
  rewrite mult_IZR. apply sqrt_square. apply IZR_le. lia.
Qed.

Lemma dist_vertical (x ya yb : Z) : dist (x, ya) (x, yb) = IZR (Z.abs (yb - ya)).
Proof.
  unfold dist, px, py. cbn [fst snd].
  replace ((x - x) * (x - x) + (yb - ya) * (yb - ya))%Z
    with (Z.abs (yb - ya) * Z.abs (yb - ya))%Z
    by (rewrite Z.abs_square; ring).
  rewrite mult_IZR. apply sqrt_square. apply IZR_le. lia.
Qed.

Lemma rectangle_sums (x0 y0 x1 y1 : Z) :
  a00 (rectangle x0 y0 x1 y1) = (- (2 * ((x1 - x0) * (y1 - y0))))%Z /\
  a10 (rectangle x0 y0 x1 y1) = (- (3 * ((x1 - x0) * (y1 - y0)) * (x0 + x1)))%Z /\
  a01 (rectangle x0 y0 x1 y1) = (- (3 * ((x1 - x0) * (y1 - y0)) * (y0 + y1)))%Z.
Proof.
  cbv [a00 a10 a01 closed_sum rectangle green last dxy px py fst snd].
  repeat split; ring.
Qed.

Lemma rectangle_perimeter (x0 y0 x1 y1 : Z) :
  (x0 < x1)%Z -> (y0 < y1)%Z ->
  arcLength (rectangle x0 y0 x1 y1) true = (2 * IZR ((x1 - x0) + (y1 - y0)))%R.
Proof.
  intros Hx Hy. unfold arcLength, rectangle. cbn [last path_length].
  rewrite !dist_horizontal, !dist_vertical.
  rewrite (Z.abs_neq (x0 - x1)), (Z.abs_eq (y1 - y0)),
          (Z.abs_eq (x1 - x0)), (Z.abs_neq (y0 - y1)) by lia.
  rewrite plus_IZR, !opp_IZR, !minus_IZR. ring.
Qed.

(** An upright rectangle is measured as it should be: the centroid is
    the middle of the rectangle (the integer part of the half sums of
    the opposite corners), the diameter is that of the disc of area
    width x height, and the circularity is
    [pi * width * height / (width + height)^2], so [pi / 4] for every
    square. *)
Theorem rectangle_measured (x0 y0 x1 y1 : Z) :
  (x0 < x1)%Z -> (y0 < y1)%Z ->
  measure (rectangle x0 y0 x1 y1)
  = Returns (Some (Z.quot (x0 + x1) 2, Z.quot (y0 + y1) 2),
             Py.Float (sqrt (4 * IZR ((x1 - x0) * (y1 - y0)) / PI)),
             Py.Float (PI * IZR ((x1 - x0) * (y1 - y0))
                       / IZR ((x1 - x0) + (y1 - y0)) ^ 2)).
Proof.
  intros Hx Hy.
  destruct (rectangle_sums x0 y0 x1 y1) as (H00 & H10 & H01).
  assert (Hwh : (0 < (x1 - x0) * (y1 - y0))%Z) by nia.
  set (wh := ((x1 - x0) * (y1 - y0))%Z) in *.
  assert (Ha : a00 (rectangle x0 y0 x1 y1) <> 0%Z) by lia.
  rewrite (measure_found _ Ha).
  assert (Hs : Z.sgn (a00 (rectangle x0 y0 x1 y1)) = (-1)%Z)
    by (rewrite H00; apply Z.sgn_neg; lia).
  assert (Harea : Q2R (contourArea (rectangle x0 y0 x1 y1)) = IZR wh).
  { unfold contourArea, Q2R. cbn [Qnum Qden]. rewrite H00.
    replace (Z.abs (- (2 * wh))) with (2 * wh)%Z by lia.
    rewrite mult_IZR. field. }
  assert (Hcx : Py.int (m10 (moments (rectangle x0 y0 x1 y1))
                        / m00 (moments (rectangle x0 y0 x1 y1)))
                = Z.quot (x0 + x1) 2).
  { unfold moments. cbn [m00 m10]. rewrite Hs, H00, H10.
    rewrite int_of_quotient by lia.
    replace (2 * (-1 * - (3 * wh * (x0 + x1))))%Z
      with ((6 * wh) * (x0 + x1))%Z by ring.
    replace (6 * (-1 * - (2 * wh)))%Z with ((6 * wh) * 2)%Z by ring.
    apply Z.quot_mul_cancel_l; lia. }
  assert (Hcy : Py.int (m01 (moments (rectangle x0 y0 x1 y1))
                        / m00 (moments (rectangle x0 y0 x1 y1)))
                = Z.quot (y0 + y1) 2).
  { unfold moments. cbn [m00 m01]. rewrite Hs, H00, H01.
    rewrite int_of_quotient by lia.
    replace (2 * (-1 * - (3 * wh * (y0 + y1))))%Z
      with ((6 * wh) * (y0 + y1))%Z by ring.
    replace (6 * (-1 * - (2 * wh)))%Z with ((6 * wh) * 2)%Z by ring.
    apply Z.quot_mul_cancel_l; lia. }
  rewrite Hcx, Hcy, Harea, (rectangle_perimeter x0 y0 x1 y1 Hx Hy).
  do 3 f_equal.
  assert (Hsum : (0 < IZR (x1 - x0 + (y1 - y0)))%R) by (apply IZR_lt; lia).
  field. lra.
Qed.

Lemma rectangle_measured_witness :
  measure (rectangle 2 3 12 7)
  = Returns (Some (7, 5)%Z,
             Py.Float (sqrt (4 * IZR ((12 - 2) * (7 - 3)) / PI)),
             Py.Float (PI * IZR ((12 - 2) * (7 - 3))
                       / IZR ((12 - 2) + (7 - 3)) ^ 2)).
Proof.
  exact (rectangle_measured 2 3 12 7 eq_refl eq_refl).
Defined.

End Rectangles.

Section Translations.

Import CV Detector Runs.

Variables dx dy : Z.

Local Abbreviation shift p := ((px p + dx)%Z, (py p + dy)%Z).

Lemma last_default {A} (rest : list A) : forall p d d' : A,
  last (p :: rest) d = last (p :: rest) d'.
Proof.
  induction rest as [|q rest IH]; intros p d d'; [reflexivity|].
  change (last (q :: rest) d = last (q :: rest) d'). apply IH.
Qed.

Lemma last_cons {A} (p d : A) (rest : list A) : last (p :: rest) d = last rest p.
Proof.
  destruct rest as [|q rest]; [reflexivity|].
  change (last (q :: rest) d = last (q :: rest) p). apply last_default.
Qed.

Lemma last_translate (c : contour) : forall d,
  last (translate dx dy c) (shift d) = shift (last c d).
Proof.
  induction c as [|p rest IH]; intros d; [reflexivity|].
  change (translate dx dy (p :: rest)) with (shift p :: translate dx dy rest).
  rewrite !last_cons. apply IH.
Qed.

Lemma dist_translate (p q : point) : dist (shift p) (shift q) = dist p q.
Proof.
  unfold dist, px, py. cbn [fst snd]. do 2 f_equal. ring.
Qed.

Lemma path_length_translate (c : contour) : forall prev,
  path_length (shift prev) (translate dx dy c) = path_length prev c.
Proof.
  induction c as [|p rest IH]; intros prev; [reflexivity|].
  change (translate dx dy (p :: rest)) with (shift p :: translate dx dy rest).
  cbn [path_length]. now rewrite dist_translate, IH.
Qed.

Lemma arcLength_translate (c : contour) :
  arcLength (translate dx dy c) true = arcLength c true.
Proof.
  destruct c as [|p0 rest]; [reflexivity|].
  change (arcLength (translate dx dy (p0 :: rest)) true)
    with (path_length (last (translate dx dy (p0 :: rest)) (shift p0))
            (translate dx dy (p0 :: rest))).
  rewrite last_translate. apply path_length_translate.
Qed.

(** Green's sums along an open path from [prev], before and after the
    translation. *)
Lemma green_translate (c : contour) : forall prev,
  let L := last c prev in
  green (fun _ _ => 1%Z) (shift prev) (translate dx dy c)
  = (green (fun _ _ => 1%Z) prev c
     + dx * (py L - py prev) - dy * (px L - px prev))%Z /\
  green (fun a b => (px a + px b)%Z) (shift prev) (translate dx dy c)
  = (green (fun a b => (px a + px b)%Z) prev c
     + 2 * dx * green (fun _ _ => 1%Z) prev c
     + dx * (green (fun _ _ => 1%Z) prev c + px L * py L - px prev * py prev)
     - dy * (px L * px L - px prev * px prev)
     + 2 * dx * (dx * (py L - py prev) - dy * (px L - px prev)))%Z /\
  green (fun a b => (py a + py b)%Z) (shift prev) (translate dx dy c)
  = (green (fun a b => (py a + py b)%Z) prev c
     + 2 * dy * green (fun _ _ => 1%Z) prev c
     + dx * (py L * py L - py prev * py prev)
     - dy * (px L * py L - px prev * py prev - green (fun _ _ => 1%Z) prev c)
     + 2 * dy * (dx * (py L - py prev) - dy * (px L - px prev)))%Z.
Proof.
  induction c as [|p rest IH]; intros prev; cbv zeta.
  - cbn [translate map green last]. repeat split; ring.
  - change (translate dx dy (p :: rest)) with (shift p :: translate dx dy rest).
    rewrite last_cons. cbn [green].
    destruct (IH p) as (H1 & H2 & H3). cbv zeta in H1, H2, H3.
    rewrite H1, H2, H3. unfold dxy, px, py. cbn [fst snd].
    repeat split; ring.
Qed.

Lemma last_twice {A} (c : list A) (d d' : A) :
  c <> [] -> last c d = last c d'.
Proof.
  destruct c as [|p rest]; [congruence|]. intros _. now rewrite !last_cons.
Qed.

Lemma sums_translate (c : contour) :
  a00 (translate dx dy c) = a00 c /\
  a10 (translate dx dy c) = (a10 c + 3 * dx * a00 c)%Z /\
  a01 (translate dx dy c) = (a01 c + 3 * dy * a00 c)%Z.
Proof.
  destruct c as [|p0 rest];
    [cbv [a00 a10 a01 closed_sum translate map]; repeat split; ring|].
  unfold a00, a10, a01.
  change (closed_sum ?w (translate dx dy (p0 :: rest)))
    with (green w (last (translate dx dy (p0 :: rest)) (shift p0))
            (translate dx dy (p0 :: rest))).
  change (closed_sum ?w (p0 :: rest))
    with (green w (last (p0 :: rest) p0) (p0 :: rest)).
  rewrite last_translate.
  destruct (green_translate (p0 :: rest) (last (p0 :: rest) p0)) as (H1 & H2 & H3).
  cbv zeta in H1, H2, H3.
  rewrite (last_twice (p0 :: rest) (last (p0 :: rest) p0) p0) in H1, H2, H3
    by discriminate.
  rewrite H1, H2, H3. repeat split; ring.
Qed.

Lemma int_shift (n m d : Z) :
  (0 < m)%Z -> (0 <= n)%Z -> (0 <= d)%Z ->
  Py.int ((n + 3 * d * m # 6) / (m # 2)) = (Py.int ((n # 6) / (m # 2)) + d)%Z.
Proof.
  intros Hm Hn Hd. rewrite !int_of_quotient by exact Hm.
  replace (2 * (n + 3 * d * m))%Z with (2 * n + d * (6 * m))%Z by ring.
  apply Z.quot_add; [lia | nia].
Qed.

(** The detector does not depend on where the object is.  A contour
    moved by [(dx, dy)] is found exactly when the contour is, with the
    same diameter and the same circularity; and moved to the right and
    down ([0 <= dx], [0 <= dy]), a contour whose first moments are not
    negative gets the centroid moved by [(dx, dy)]. *)
Theorem translation_invariant (c : contour) :
  (measure c = Returns not_found ->
   measure (translate dx dy c) = Returns not_found) /\
  (forall p diameter circularity,
     measure c = Returns (Some p, Py.Float diameter, Py.Float circularity) ->
     exists p',
       measure (translate dx dy c)
       = Returns (Some p', Py.Float diameter, Py.Float circularity) /\
       ((0 <= dx)%Z -> (0 <= dy)%Z ->
        0 <= m10 (moments c) -> 0 <= m01 (moments c) ->
        p' = (fst p + dx, snd p + dy)%Z)).
Proof.
  destruct (sums_translate c) as (H00 & H10 & H01).
  destruct (Z.eq_dec (a00 c) 0) as [Ha|Ha].
  - split.
    + intros _. apply measure_not_found. congruence.
    + intros p d k H. rewrite (measure_not_found c Ha) in H. discriminate.
  - split.
    + intros H. rewrite (measure_found c Ha) in H. discriminate.
    + intros p d k H. rewrite (measure_found c Ha) in H.
      injection H as <- <- <-.
      assert (Ha' : a00 (translate dx dy c) <> 0%Z) by congruence.
      rewrite (measure_found _ Ha').
      eexists. split.
      * unfold contourArea. rewrite H00, arcLength_translate. reflexivity.
      * intros Hdx Hdy Hm10 Hm01. cbn [fst snd].
        unfold moments in *. cbn [m00 m10 m01] in *.
        rewrite H00, H10, H01.
        assert (Hm : (0 < Z.sgn (a00 c) * a00 c)%Z)
          by (destruct (a00 c); cbn; lia).
        unfold Qle in Hm10, Hm01. cbn [Qnum Qden] in Hm10, Hm01.
        replace (Z.sgn (a00 c) * (a10 c + 3 * dx * a00 c))%Z
          with (Z.sgn (a00 c) * a10 c + 3 * dx * (Z.sgn (a00 c) * a00 c))%Z
          by ring.
        replace (Z.sgn (a00 c) * (a01 c + 3 * dy * a00 c))%Z
          with (Z.sgn (a00 c) * a01 c + 3 * dy * (Z.sgn (a00 c) * a00 c))%Z
          by ring.
        rewrite !int_shift by lia. reflexivity.
Qed.

End Translations.

(** * The overlay and the sensor coordinates *)

Section SensorCoordinates.

Import Float64 Processing.

(** The sensor coordinates of a centroid of the 1280x720 image are
    always both there, lie inside the 4096x3000 sensor (the columns
    beyond 4092 and the rows beyond 2995 are never named), and keep the
    order: of two centroids, the one further right, or further down, is
    further right, or further down, on the sensor too. *)
Theorem native_coordinates_in_sensor (cx cy cx' cy' : Z) :
  (0 <= cx < 1280)%Z -> (0 <= cy < 720)%Z ->
  (0 <= cx' < 1280)%Z -> (0 <= cy' < 720)%Z ->
  exists X Y X' Y',
    native_coordinates (Some (cx, cy)) = Returns (Some X, Some Y) /\
    native_coordinates (Some (cx', cy')) = Returns (Some X', Some Y') /\
    (0 <= X <= 4092)%Z /\ (0 <= Y <= 2995)%Z /\
    ((cx < cx')%Z -> (X < X')%Z) /\ ((cy < cy')%Z -> (Y < Y')%Z).
Proof.
  intros Hx Hy Hx' Hy'.
  exists (Z.quot (cx * 4096) 1280), (Z.quot (cy * 3000) 720),
         (Z.quot (cx' * 4096) 1280), (Z.quot (cy' * 3000) 720).
  unfold native_coordinates. cbn [Py.truthy_opt unpack obind fst snd].
  rewrite (scale_x_exact cx Hx), (scale_x_exact cx' Hx'). cbn [obind].
  rewrite (scale_y_exact cy Hy), (scale_y_exact cy' Hy'). cbn [obind].
  split; [reflexivity|]. split; [reflexivity|].
  rewrite !Z.quot_div_nonneg by lia.
  split; [Z.div_mod_to_equations; lia|].
  split; [Z.div_mod_to_equations; lia|].
  split; intros H; Z.div_mod_to_equations; lia.
Qed.

Lemma native_coordinates_in_sensor_witness :
  exists X Y X' Y',
    native_coordinates (Some (1279, 719)%Z) = Returns (Some X, Some Y) /\
    native_coordinates (Some (0, 0)%Z) = Returns (Some X', Some Y') /\
    (0 <= X <= 4092)%Z /\ (0 <= Y <= 2995)%Z /\
    ((1279 < 0)%Z -> (X < X')%Z) /\ ((719 < 0)%Z -> (Y < Y')%Z).
Proof.
  apply (native_coordinates_in_sensor 1279 719 0 0); lia.
Defined.

End SensorCoordinates.

Section Overlay.

Import CV Detector Processing Gui Worker Runs.

Lemma to_int_errors (x : Float64.float) (e : exn) :
  Float64.to_int x = Raises e -> e = OverflowError \/ e = ValueError.
Proof.
  destruct x as [s|s| |s m ex]; cbn; intros [=]; subst; auto.
Qed.

Variables RGBImage Image Gray Binary : Type.
Variable convert : raw_image -> outcome (option RGBImage).
Variable get_numpy_array : RGBImage -> outcome (option Image).
Variable resize : Image -> Image.
Variable cvtColor : Image -> Gray.
Variable threshold : Gray -> Binary.
Variable findContours : Binary -> list contour.

Local Abbreviation detect := (calculate_centroid cvtColor threshold findContours).
Local Abbreviation draw := (process_image cvtColor threshold findContours).

Lemma detect_cases (image : Image) :
  detect image = Returns not_found \/
  exists cx cy d k, detect image = Returns (Some (cx, cy), Py.Float d, Py.Float k).
Proof.
  destruct (contours_cases _ _ _ cvtColor threshold findContours image)
    as [He|[c Hc]].
  - left. now apply calculate_centroid_empty.
  - rewrite (calculate_centroid_largest _ _ _ _ _ _ image c Hc).
    destruct (Z.eq_dec (a00 c) 0) as [Ha|Ha].
    + left. now apply measure_not_found.
    + right. rewrite (measure_found c Ha). eauto.
Qed.

Lemma process_image_cases (image : Image) :
  (detect image = Returns not_found /\ draw image = Returns axes) \/
  (exists cx cy d k,
     detect image = Returns (Some (cx, cy), Py.Float d, Py.Float k) /\
     ((exists X Y,
         native_coordinates (Some (cx, cy)) = Returns (Some X, Some Y) /\
         draw image
         = Returns (axes ++
                    [Ellipse (cx - 5) (cy - 5) (cx + 5) (cy + 5);
                     TextCoordinates (cx + 10) (cy + 10) (Some X) (Some Y);
                     TextDiameter 10 20 (Py.Float d);
                     TextCircularity 10 40 (Py.Float k)])) \/
      (exists e, (e = OverflowError \/ e = ValueError) /\
                 draw image = Raises e))).
Proof.
  unfold process_image.
  destruct (detect_cases image) as [H|(cx & cy & d & k & H)]; rewrite H.
  - left. split; reflexivity.
  - right. exists cx, cy, d, k. split; [reflexivity|].
    cbn [obind fst snd]. unfold native_coordinates.
    cbn [Py.truthy_opt unpack obind fst snd].
    destruct (Float64.to_int (Float64.mul (Float64.of_int cx) scale_x))
      as [X|e] eqn:HX; cbn [obind].
    2:{ right. exists e. split; [now apply to_int_errors in HX | reflexivity]. }
    destruct (Float64.to_int (Float64.mul (Float64.of_int cy) scale_y))
      as [Y|e] eqn:HY; cbn [obind].
    2:{ right. exists e. split; [now apply to_int_errors in HY | reflexivity]. }
    left. exists X, Y. split; reflexivity.
Qed.

(** What [process_frames] draws on a frame.  The two red axes through
    (640, 360) are always drawn, and first.  With no object found they
    are all that is drawn; with an object found, the marker around the
    centroid, the label of the sensor coordinates (both of them
    numbers, never [None]), the diameter and the circularity follow,
    in this order.  And drawing can fail only in the conversion of the
    sensor coordinates to integers: never by a division by zero, never
    on the "not found" triple. *)
Theorem process_image_overlay (image : Image) :
  (forall drawn, draw image = Returns drawn ->
     (detect image = Returns not_found /\ drawn = axes) \/
     (exists cx cy X Y d k,
        detect image = Returns (Some (cx, cy), Py.Float d, Py.Float k) /\
        native_coordinates (Some (cx, cy)) = Returns (Some X, Some Y) /\
        drawn = axes ++
                [Ellipse (cx - 5) (cy - 5) (cx + 5) (cy + 5);
                 TextCoordinates (cx + 10) (cy + 10) (Some X) (Some Y);
                 TextDiameter 10 20 (Py.Float d);
                 TextCircularity 10 40 (Py.Float k)])) /\
  (forall e, draw image = Raises e ->
     (e = OverflowError \/ e = ValueError) /\
     detect image <> Returns not_found).
Proof.
  destruct (process_image_cases image)
    as [[Hd Hp]|(cx & cy & d & k & Hd & [(X & Y & Hn & Hp)|(e & He & Hp)])];
    rewrite Hp; split.
  - intros drawn [= <-]. now left.
  - intros e [=].
  - intros drawn [= <-]. right. exists cx, cy, X, Y, d, k. auto.
  - intros e [=].
  - intros drawn [=].
  - intros e' [= <-]. split; [exact He|]. rewrite Hd. discriminate.
Qed.

Local Abbreviation handle :=
  (process_frame RGBImage Image Gray Binary convert get_numpy_array resize
     cvtColor threshold findContours).

(** One frame taken from the queue gives at most one effect: an image
    presented, an error printed, or nothing.  Nothing, without a word,
    when a conversion of the frame gives [None]; the error of the
    conversion when it raises; and every image presented carries the
    two axes first and has either nothing else or the four marks of a
    found object. *)
Theorem process_frame_effects (raw : raw_image) :
  (length (handle raw) <= 1)%nat /\
  (convert raw = Returns None -> handle raw = []) /\
  (forall rgb, convert raw = Returns (Some rgb) ->
     get_numpy_array rgb = Returns None -> handle raw = []) /\
  (forall e, convert raw = Raises e ->
     handle raw = [Print (ErrorProcessingFrame e)]) /\
  (forall drawn, In (Present drawn) (handle raw) ->
     firstn 2 drawn = axes /\ (length drawn = 2 \/ length drawn = 6)%nat).
Proof.
  unfold process_frame.
  assert (Hpresent : forall shapes drawn,
            In (Present drawn) [Present shapes] -> drawn = shapes).
  { intros shapes drawn [H|[]]. now injection H. }
  destruct (convert raw) as [[rgb|]|e] eqn:Hc; cbn [obind].
  - destruct (get_numpy_array rgb) as [[a|]|e] eqn:Hn; cbn [obind].
    + destruct (process_image_cases (resize a))
        as [[Hd Hp]|(cx & cy & d & k & Hd & [(X & Y & Hx & Hp)|(e & He & Hp)])];
        rewrite Hp; cbn [obind].
      * split; [cbn; lia|]. split; [discriminate|].
        split; [intros rgb' [= <-]; congruence|]. split; [discriminate|].
        intros drawn Hin. apply Hpresent in Hin. subst drawn. cbn. auto.
      * split; [cbn; lia|]. split; [discriminate|].
        split; [intros rgb' [= <-]; congruence|]. split; [discriminate|].
        intros drawn Hin. apply Hpresent in Hin. subst drawn. cbn. auto.
      * split; [cbn; lia|]. split; [discriminate|].
        split; [intros rgb' [= <-]; congruence|]. split; [discriminate|].
        intros drawn [Hin|[]]. discriminate Hin.
    + split; [cbn; lia|]. split; [discriminate|].
      split; [reflexivity|]. split; [discriminate|].
      intros drawn [].
    + split; [cbn; lia|]. split; [discriminate|].
      split; [intros rgb' [= <-]; congruence|]. split; [discriminate|].
      intros drawn [Hin|[]]. discriminate Hin.
  - split; [cbn; lia|]. split; [reflexivity|].
    split; [discriminate|]. split; [discriminate|].
    intros drawn [].
  - split; [cbn; lia|]. split; [discriminate|].
    split; [discriminate|]. split; [now intros e' [= <-]|].
    intros drawn [Hin|[]]. discriminate Hin.
Qed.

End Overlay.

